(** * Client portal: authentication and session lifecycle

    A shallow embedding of the backend's authentication engine
    (app/services/auth_service.py, app/services/user_service.py,
    app/services/audit_service.py, app/core/security.py,
    app/core/dependencies.py and the ORM models under app/models), of
    the routes in front of it (app/api/v1/auth.py, app/api/v1/users.py,
    app/api/v1/notifications.py) and of the password validator of
    app/schemas/user.py.

    The SQLAlchemy session is modelled by explicit state passing: a
    connection holds the committed tables and the tables as seen inside
    the open transaction.  [commit] publishes the working tables or
    raises and rolls back.  Service functions live in a small
    state-and-exception monad.  The store is PostgreSQL
    ([DATABASE_URL : PostgresDsn]): a timestamp column declared
    [DateTime(timezone=True)] gives a timezone-aware [datetime] when a
    row is loaded, while [datetime.utcnow()] is naive. *)

From Stdlib Require Import ZArith Lia.
From stdpp Require Import base option list strings gmap pretty sorting.

Local Open Scope string_scope.
Local Open Scope list_scope.
Local Open Scope Z_scope.

Set Warnings "-register-all".

(** ** Python values *)

(** Values held in [Dict[str, Any]] payloads and in dynamically typed
    attributes. *)
Inductive PyVal : Type :=
| VNone
| VBool (b : bool)
| VInt (z : Z)
| VStr (s : string)
| VDatetime (t : Z)
| VList (l : list PyVal)
| VDict (kv : list (string * PyVal)).

(** [datetime] values are clock readings in microseconds. *)
Definition datetime := Z.

Definition timedelta_minutes (m : Z) : Z := m * 60000000.
Definition timedelta_days (d : Z) : Z := d * 86400000000.

(** Primary keys ([UUID] columns). *)
Definition UUID := Z.

(** Python truthiness of an [Optional[str]]: [None] and the empty
    string are falsy. *)
Definition truthy (o : option string) : bool :=
  match o with
  | Some s => bool_decide (s ≠ "")
  | None => false
  end.

(** [a or b] on [Optional[str]]. *)
Definition py_or (a b : option string) : option string :=
  if truthy a then a else b.

(** Truthiness of an arbitrary value. *)
Definition truthy_val (v : PyVal) : bool :=
  match v with
  | VNone => false
  | VBool b => b
  | VInt z => bool_decide (z ≠ 0)
  | VStr s => bool_decide (s ≠ "")
  | VDatetime _ => true
  | VList l => bool_decide (l ≠ [])
  | VDict kv => bool_decide (kv ≠ [])
  end.

(** [v == s] for the result [v] of a [dict.get] and a string literal. *)
Definition val_is_str (v : option PyVal) (s : string) : bool :=
  match v with
  | Some (VStr x) => bool_decide (x = s)
  | _ => false
  end.

(** [str.lower()] on the ASCII letters. *)
Definition lower_ascii (a : Ascii.ascii) : Ascii.ascii :=
  let n := Ascii.nat_of_ascii a in
  if ((65 <=? n) && (n <=? 90))%nat then Ascii.ascii_of_nat (n + 32) else a.

Fixpoint lower (s : string) : string :=
  match s with
  | EmptyString => EmptyString
  | String a s' => String (lower_ascii a) (lower s')
  end.

(** [str.upper()] on the ASCII letters. *)
Definition upper_ascii (a : Ascii.ascii) : Ascii.ascii :=
  let n := Ascii.nat_of_ascii a in
  if ((97 <=? n) && (n <=? 122))%nat then Ascii.ascii_of_nat (n - 32) else a.

(** [str.capitalize()] on ASCII strings: first character upper case,
    the rest lower case. *)
Definition capitalize (s : string) : string :=
  match s with
  | EmptyString => EmptyString
  | String a s' => String (upper_ascii a) (lower s')
  end.

Fixpoint starts_with (p s : string) : bool :=
  match p, s with
  | EmptyString, _ => true
  | String a p', String b s' => bool_decide (a = b) && starts_with p' s'
  | String _ _, EmptyString => false
  end.

(** [sub in s] on strings. *)
Fixpoint str_in (sub s : string) : bool :=
  starts_with sub s ||
  match s with
  | EmptyString => false
  | String _ s' => str_in sub s'
  end.

Definition opt_str (o : option string) : PyVal :=
  match o with Some s => VStr s | None => VNone end.

(** ** Exceptions *)

Inductive Exception : Type :=
| HTTPException (status_code : Z) (detail : string)
| SQLAlchemyError
| TypeError
| ValidationError.

Inductive Result (A : Type) : Type :=
| Ok (a : A)
| Raise (e : Exception).
Arguments Ok {A} a.
Arguments Raise {A} e.

(** ** Python datetimes *)

(** A [datetime] object is naive (no [tzinfo]) or timezone-aware.
    [datetime.utcnow()] is naive.  The attribute of a loaded row for a
    [DateTime(timezone=True)] column is timezone-aware, whatever object
    was assigned before the row was written. *)
Inductive pydatetime : Type :=
| naive (t : datetime)
| aware (t : datetime).

Definition utcnow (now : datetime) : pydatetime := naive now.

Definition timestamptz (t : datetime) : pydatetime := aware t.

(** [a < b] and [a > b] on [datetime] objects: a naive and an aware one
    cannot be compared ([TypeError: can't compare offset-naive and
    offset-aware datetimes]). *)
Definition datetime_lt (a b : pydatetime) : Result bool :=
  match a, b with
  | naive x, naive y => Ok (x <? y)
  | aware x, aware y => Ok (x <? y)
  | _, _ => Raise TypeError
  end.

Definition datetime_gt (a b : pydatetime) : Result bool :=
  match a, b with
  | naive x, naive y => Ok (y <? x)
  | aware x, aware y => Ok (y <? x)
  | _, _ => Raise TypeError
  end.

(** ** ORM models *)

(** The records are rows of the store; a timestamp field holds the
    instant the column stores. *)

Module User.
Record t : Type := mk {
  id : UUID;
  email : string;
  username : string;
  password_hash : string;
  first_name : PyVal;
  last_name : PyVal;
  role : string;
  is_active : bool;
  mfa_enabled : bool;
  failed_login_attempts : Z;
  locked_until : option datetime;
  preferences : PyVal;
  last_login_at : option datetime
}.

Definition set_failed_login_attempts (n : Z) (u : t) : t :=
  mk (id u) (email u) (username u) (password_hash u) (first_name u)
     (last_name u) (role u) (is_active u) (mfa_enabled u) n
     (locked_until u) (preferences u) (last_login_at u).

Definition set_locked_until (l : option datetime) (u : t) : t :=
  mk (id u) (email u) (username u) (password_hash u) (first_name u)
     (last_name u) (role u) (is_active u) (mfa_enabled u)
     (failed_login_attempts u) l (preferences u) (last_login_at u).

Definition set_last_login_at (l : option datetime) (u : t) : t :=
  mk (id u) (email u) (username u) (password_hash u) (first_name u)
     (last_name u) (role u) (is_active u) (mfa_enabled u)
     (failed_login_attempts u) (locked_until u) (preferences u) l.

Definition set_password_hash (h : string) (u : t) : t :=
  mk (id u) (email u) (username u) h (first_name u)
     (last_name u) (role u) (is_active u) (mfa_enabled u)
     (failed_login_attempts u) (locked_until u) (preferences u)
     (last_login_at u).

Definition set_first_name (v : PyVal) (u : t) : t :=
  mk (id u) (email u) (username u) (password_hash u) v
     (last_name u) (role u) (is_active u) (mfa_enabled u)
     (failed_login_attempts u) (locked_until u) (preferences u)
     (last_login_at u).

Definition set_last_name (v : PyVal) (u : t) : t :=
  mk (id u) (email u) (username u) (password_hash u) (first_name u)
     v (role u) (is_active u) (mfa_enabled u)
     (failed_login_attempts u) (locked_until u) (preferences u)
     (last_login_at u).

Definition set_preferences (v : PyVal) (u : t) : t :=
  mk (id u) (email u) (username u) (password_hash u) (first_name u)
     (last_name u) (role u) (is_active u) (mfa_enabled u)
     (failed_login_attempts u) (locked_until u) v (last_login_at u).

Definition set_email (v : string) (u : t) : t :=
  mk (id u) v (username u) (password_hash u) (first_name u)
     (last_name u) (role u) (is_active u) (mfa_enabled u)
     (failed_login_attempts u) (locked_until u) (preferences u)
     (last_login_at u).

Definition set_username (v : string) (u : t) : t :=
  mk (id u) (email u) v (password_hash u) (first_name u)
     (last_name u) (role u) (is_active u) (mfa_enabled u)
     (failed_login_attempts u) (locked_until u) (preferences u)
     (last_login_at u).

Definition set_role (v : string) (u : t) : t :=
  mk (id u) (email u) (username u) (password_hash u) (first_name u)
     (last_name u) v (is_active u) (mfa_enabled u)
     (failed_login_attempts u) (locked_until u) (preferences u)
     (last_login_at u).

Definition set_is_active (v : bool) (u : t) : t :=
  mk (id u) (email u) (username u) (password_hash u) (first_name u)
     (last_name u) (role u) v (mfa_enabled u)
     (failed_login_attempts u) (locked_until u) (preferences u)
     (last_login_at u).

Definition set_mfa_enabled (v : bool) (u : t) : t :=
  mk (id u) (email u) (username u) (password_hash u) (first_name u)
     (last_name u) (role u) (is_active u) v
     (failed_login_attempts u) (locked_until u) (preferences u)
     (last_login_at u).

(** Python's [setattr(user, field, value)] on the mapped attributes.  The
    nullable profile columns take any value; a typed column takes a
    value of its type, and [None] is returned for any other
    assignment. *)
Definition setattr (field : string) (value : PyVal) (u : t) : option t :=
  if bool_decide (field = "first_name") then Some (set_first_name value u)
  else if bool_decide (field = "last_name") then Some (set_last_name value u)
  else if bool_decide (field = "preferences") then
    Some (set_preferences value u)
  else if bool_decide (field = "email") then
    match value with VStr s => Some (set_email s u) | _ => None end
  else if bool_decide (field = "username") then
    match value with VStr s => Some (set_username s u) | _ => None end
  else if bool_decide (field = "password_hash") then
    match value with VStr s => Some (set_password_hash s u) | _ => None end
  else if bool_decide (field = "role") then
    match value with VStr s => Some (set_role s u) | _ => None end
  else if bool_decide (field = "is_active") then
    match value with VBool b => Some (set_is_active b u) | _ => None end
  else if bool_decide (field = "mfa_enabled") then
    match value with VBool b => Some (set_mfa_enabled b u) | _ => None end
  else if bool_decide (field = "failed_login_attempts") then
    match value with
    | VInt n => Some (set_failed_login_attempts n u)
    | _ => None
    end
  else if bool_decide (field = "locked_until") then
    match value with
    | VDatetime d => Some (set_locked_until (Some d) u)
    | VNone => Some (set_locked_until None u)
    | _ => None
    end
  else if bool_decide (field = "last_login_at") then
    match value with
    | VDatetime d => Some (set_last_login_at (Some d) u)
    | VNone => Some (set_last_login_at None u)
    | _ => None
    end
  else None.

(** [User.is_locked]: a property, recomputed from [locked_until] and the
    clock at each read; [self.locked_until] is the attribute of the
    loaded row. *)
Definition is_locked (now : datetime) (u : t) : Result bool :=
  match locked_until u with
  | None => Ok false
  | Some l => datetime_lt (utcnow now) (timestamptz l)
  end.
End User.

Module SessionModel.
(** The [id] column (a [uuid4] default) is the position of the row in the
    table; [created_at] and [last_used_at] are the insertion time. *)
Record t : Type := mk {
  user_id : UUID;
  refresh_token : string;
  ip_address : option string;
  user_agent : option string;
  device_type : string;
  expires_at : datetime;
  is_revoked : bool;
  created_at : datetime;
  last_used_at : datetime
}.

Definition set_is_revoked (b : bool) (s : t) : t :=
  mk (user_id s) (refresh_token s) (ip_address s) (user_agent s)
     (device_type s) (expires_at s) b (created_at s) (last_used_at s).

(** [SessionModel.is_expired]: [datetime.utcnow() > self.expires_at],
    on the attribute of the loaded row. *)
Definition is_expired (now : datetime) (s : t) : Result bool :=
  datetime_gt (utcnow now) (timestamptz (expires_at s)).

(** [SessionModel.is_valid]:
    [not self.is_revoked and not self.is_expired]; [and] evaluates its
    right operand only when the left one is true. *)
Definition is_valid (now : datetime) (s : t) : Result bool :=
  if negb (is_revoked s) then
    match is_expired now s with
    | Ok expired => Ok (negb expired)
    | Raise e => Raise e
    end
  else Ok false.
End SessionModel.

Module AuditLog.
(** [metadata_] is the nullable JSON column [metadata]. *)
Record t : Type := mk {
  user_id : option UUID;
  action : string;
  ip_address : option string;
  user_agent : option string;
  outcome : string;
  metadata_ : PyVal;
  created_at : datetime
}.
End AuditLog.

(** ** The store *)

Record Tables : Type := mkTables {
  users : list User.t;
  sessions : list SessionModel.t;
  audit_log : list AuditLog.t
}.

(** A database connection: [durable] is what has been committed,
    [working] is the view inside the open transaction.  [audit_writable]
    is the store's health for the audit table: when it is [false] the
    store refuses to commit a new [audit_log] row. *)
Record Db : Type := mkDb {
  durable : Tables;
  working : Tables;
  audit_writable : bool
}.

(** A freshly opened connection ([SessionLocal()]). *)
Definition connect (t : Tables) (healthy : bool) : Db := mkDb t t healthy.

(** The tables with one more audit row. *)
Definition audited (t : Tables) (e : AuditLog.t) : Tables :=
  mkTables (users t) (sessions t) (audit_log t ++ [e]).

Definition with_user (i : nat) (u : User.t) (t : Tables) : Tables :=
  mkTables (<[i := u]> (users t)) (sessions t) (audit_log t).

Definition with_session (i : nat) (s : SessionModel.t) (t : Tables)
  : Tables :=
  mkTables (users t) (<[i := s]> (sessions t)) (audit_log t).

Definition with_new_session (s : SessionModel.t) (t : Tables) : Tables :=
  mkTables (users t) (sessions t ++ [s]) (audit_log t).

(** ** The service monad *)

Definition M (A : Type) : Type := Db → Result A * Db.

Definition ret {A} (a : A) : M A := λ db, (Ok a, db).

Definition bind {A B} (m : M A) (k : A → M B) : M B :=
  λ db, match m db with
        | (Ok a, db') => k a db'
        | (Raise e, db') => (Raise e, db')
        end.

Definition raise {A} (e : Exception) : M A := λ db, (Raise e, db).

(** A computation that does not touch the connection. *)
Definition lift {A} (r : Result A) : M A := λ db, (r, db).

Notation "'do' x <- c1 ; c2" := (bind c1 (λ x, c2))
  (at level 10, x name, c1 at level 100, c2 at level 200).

Definition HTTP_400_BAD_REQUEST : Z := 400.
Definition HTTP_401_UNAUTHORIZED : Z := 401.
Definition HTTP_403_FORBIDDEN : Z := 403.

(** ** Storage operations *)

Definition tokens (t : Tables) : list string :=
  SessionModel.refresh_token <$> sessions t.

(** The unique index on [refresh_token] ([unique=True]): the store
    checks the rows inserted by the transaction, those past the committed
    length, against the rows before them and against each other. *)
Definition unique_inserts (old new : list string) : bool :=
  bool_decide (NoDup (drop (length old) new))
  && forallb (λ t, bool_decide (t ∉ take (length old) new))
       (drop (length old) new).

(** The constraints the store checks at commit: the unique index, and a
    pending [audit_log] insert needs a store that accepts it. *)
Definition constraints_ok (db : Db) : bool :=
  unique_inserts (tokens (durable db)) (tokens (working db))
  && (audit_writable db
      || (length (audit_log (working db))
          =? length (audit_log (durable db)))%nat).

(** [db.commit()]: publish the transaction, or raise and roll back. *)
Definition commit : M unit := λ db,
  if constraints_ok db
  then (Ok (), mkDb (working db) (working db) (audit_writable db))
  else (Raise SQLAlchemyError,
        mkDb (durable db) (durable db) (audit_writable db)).

Definition get_working : M Tables := λ db, (Ok (working db), db).

Definition put_working (t : Tables) : M unit := λ db,
  (Ok (), mkDb (durable db) t (audit_writable db)).

(** Flush of a mutated ORM object: the row it was loaded from is
    overwritten. *)
Definition flush_user (i : nat) (u : User.t) : M unit :=
  do t <- get_working;
  put_working (with_user i u t).

Definition flush_session (i : nat) (s : SessionModel.t) : M unit :=
  do t <- get_working;
  put_working (with_session i s t).

(** [db.add(session)]: rows are appended; the result is the new row's
    position, which stands for its primary key. *)
Definition add_session (s : SessionModel.t) : M nat :=
  do t <- get_working;
  do _ <- put_working (with_new_session s t);
  ret (length (sessions t)).

Definition add_audit (a : AuditLog.t) : M unit :=
  do t <- get_working;
  put_working (audited t a).

(** [db.query(Model).filter(p).first()]: the first matching row, with
    its position. *)
Definition query_first_user (P : User.t → Prop) `{∀ u, Decision (P u)}
  : M (option (nat * User.t)) :=
  do t <- get_working; ret (list_find P (users t)).

Definition query_first_session (P : SessionModel.t → Prop)
  `{∀ s, Decision (P s)} : M (option (nat * SessionModel.t)) :=
  do t <- get_working; ret (list_find P (sessions t)).

(** ** Audit service *)

(** [log_audit_event]: add the entry, commit, return it.  The
    constructor is called with the keyword [metadata], which is not the
    mapped attribute ([metadata_]): the value becomes a plain attribute
    of the object and the column of the row stays [NULL]. *)
Definition log_audit_event (now : datetime) (action outcome : string)
  (user_id : option UUID) (ip_address user_agent : option string)
  (metadata : list (string * PyVal)) : M AuditLog.t :=
  let audit_entry :=
    AuditLog.mk user_id action ip_address user_agent outcome VNone now in
  do _ <- add_audit audit_entry;
  do _ <- commit;
  ret audit_entry.

(** What a call that ends with an audit write leaves behind, from a
    clean connection on [t]: the result [r] and the audit row on a
    healthy store, a storage error and [t] as it was otherwise. *)
Definition after_audit {A} (healthy : bool) (t : Tables) (e : AuditLog.t)
  (r : Result A) : Result A * Db :=
  if healthy then (r, connect (audited t e) true)
  else (Raise SQLAlchemyError, connect t false).

(** ** Settings and library primitives *)

(** [app.core.config.Settings]: the fields the services read. *)
Class Settings : Type := {
  ACCESS_TOKEN_EXPIRE_MINUTES : Z;
  REFRESH_TOKEN_EXPIRE_DAYS : Z;
  MAX_FAILED_LOGIN_ATTEMPTS : Z;
  ACCOUNT_LOCKOUT_DURATION_MINUTES : Z
}.

(** The library calls of app/core/security.py and the [uuid] module.
    [jwt_encode] and [jwt_decode] stand for [jwt.encode] and [jwt.decode]
    under the configured key and algorithm; decoding checks expiry, so it
    reads the clock. *)
Class Primitives : Type := {
  pwd_context_hash : string → string;
  pwd_context_verify : string → string → bool;
  jwt_encode : gmap string PyVal → string;
  jwt_decode : datetime → string → option (gmap string PyVal);
  uuid_str : UUID → string;
  uuid_parse : string → option UUID
}.

(** The defaults of app/core/config.py. *)
Definition default_settings : Settings := {|
  ACCESS_TOKEN_EXPIRE_MINUTES := 15;
  REFRESH_TOKEN_EXPIRE_DAYS := 7;
  MAX_FAILED_LOGIN_ATTEMPTS := 5;
  ACCOUNT_LOCKOUT_DURATION_MINUTES := 15
|}.

Section Services.
Context `{settings : Settings} `{prims : Primitives}.

(** ** app/core/security.py *)

Definition hash_password (password : string) : string :=
  pwd_context_hash password.

Definition verify_password (plain_password hashed_password : string) : bool :=
  pwd_context_verify plain_password hashed_password.

(** The dictionary [to_encode] of [create_access_token]. *)
Definition access_claims (now : datetime) (data : gmap string PyVal)
  (expires_delta : option Z) : gmap string PyVal :=
  let to_encode := data in
  let expire :=
    match expires_delta with
    | Some d => if bool_decide (d ≠ 0) then now + d
                else now + timedelta_minutes ACCESS_TOKEN_EXPIRE_MINUTES
    | None => now + timedelta_minutes ACCESS_TOKEN_EXPIRE_MINUTES
    end in
  <["type" := VStr "access"]> (<["exp" := VDatetime expire]> to_encode).

Definition create_access_token (now : datetime) (data : gmap string PyVal)
  (expires_delta : option Z) : string :=
  jwt_encode (access_claims now data expires_delta).

(** The dictionary [to_encode] of [create_refresh_token]. *)
Definition refresh_claims (now : datetime) (data : gmap string PyVal)
  (expires_delta : option Z) : gmap string PyVal :=
  let to_encode := data in
  let expire :=
    match expires_delta with
    | Some d => if bool_decide (d ≠ 0) then now + d
                else now + timedelta_days REFRESH_TOKEN_EXPIRE_DAYS
    | None => now + timedelta_days REFRESH_TOKEN_EXPIRE_DAYS
    end in
  <["type" := VStr "refresh"]> (<["exp" := VDatetime expire]> to_encode).

Definition create_refresh_token (now : datetime) (data : gmap string PyVal)
  (expires_delta : option Z) : string :=
  jwt_encode (refresh_claims now data expires_delta).

(** [decode_token]: the payload, or [None] on any [JWTError]. *)
Definition decode_token (now : datetime) (token : string)
  : option (gmap string PyVal) :=
  jwt_decode now token.

(** ** app/core/dependencies.py *)

(** [get_current_user]: the access guard.  [token] is
    [credentials.credentials]; the ORM object returned is the row's
    position with its attribute values. *)
Definition get_current_user (now : datetime) (token : string)
  : M (nat * User.t) :=
  match decode_token now token with
  | None => raise (HTTPException HTTP_401_UNAUTHORIZED "Invalid or expired token")
  | Some payload =>
    let token_type := payload !! "type" in
    if negb (val_is_str token_type "access") then
      raise (HTTPException HTTP_401_UNAUTHORIZED "Invalid token type")
    else
      let user_id_str := default VNone (payload !! "sub") in
      if negb (truthy_val user_id_str) then
        raise (HTTPException HTTP_401_UNAUTHORIZED "Token missing subject claim")
      else
        match user_id_str with
        | VStr s =>
          match uuid_parse s with
          | None =>
            raise (HTTPException HTTP_401_UNAUTHORIZED "Invalid user ID in token")
          | Some user_id =>
            do r <- query_first_user (λ u, User.id u = user_id);
            match r with
            | None => raise (HTTPException HTTP_401_UNAUTHORIZED "User not found")
            | Some (i, user) =>
              if negb (User.is_active user) then
                raise (HTTPException HTTP_403_FORBIDDEN
                         "Account has been deactivated")
              else
                do locked <- lift (User.is_locked now user);
                if locked then
                  raise (HTTPException HTTP_403_FORBIDDEN
                    "Account is temporarily locked due to failed login attempts")
                else ret (i, user)
            end
          end
        | _ => raise TypeError
        end
  end.

(** [require_role]: the role hierarchy lookup and the level check. *)
Definition role_level (default : Z) (r : string) : Z :=
  if bool_decide (r = "user") then 1
  else if bool_decide (r = "manager") then 2
  else if bool_decide (r = "admin") then 3
  else default.

Definition require_role (required_role : string) (current_user : User.t)
  : M User.t :=
  let user_level := role_level 0 (User.role current_user) in
  let required_level := role_level 999 required_role in
  if user_level <? required_level then
    raise (HTTPException HTTP_403_FORBIDDEN
             ("Insufficient permissions. " +:+ capitalize required_role
              +:+ " role required."))
  else ret current_user.

(** ** app/services/auth_service.py *)

(** Each service call reads the clock once; [now] is that reading. *)

(** [AuthService._detect_device_type]. *)
Definition _detect_device_type (user_agent : option string) : string :=
  match user_agent with
  | None => "unknown"
  | Some ua =>
    if negb (truthy (Some ua)) then "unknown"
    else
      let user_agent_lower := lower ua in
      if existsb (λ mobile, str_in mobile user_agent_lower)
           ["mobile"; "android"; "iphone"]
      then "mobile"
      else if str_in "tablet" user_agent_lower
              || str_in "ipad" user_agent_lower
      then "tablet"
      else "desktop"
  end.

(** [AuthService.authenticate_user].  The timestamp put in the
    [locked_until] metadata stands for its [isoformat()] rendering. *)
Definition authenticate_user (now : datetime)
  (email_or_username password : string)
  (ip_address user_agent : option string) : M (User.t * string * string) :=
  do r <- query_first_user
            (λ u, User.email u = email_or_username
                  ∨ User.username u = email_or_username);
  match r with
  | None =>
    do _ <- log_audit_event now "login_failure" "failure" None
              ip_address user_agent
              [("email_or_username", VStr email_or_username);
               ("reason", VStr "user_not_found")];
    raise (HTTPException HTTP_401_UNAUTHORIZED "Invalid credentials")
  | Some (i, user) =>
    if negb (User.is_active user) then
      do _ <- log_audit_event now "login_failure" "failure"
                (Some (User.id user)) ip_address user_agent
                [("email", VStr (User.email user));
                 ("reason", VStr "account_deactivated")];
      raise (HTTPException HTTP_403_FORBIDDEN "Account has been deactivated")
    else
    do locked <- lift (User.is_locked now user);
    if locked then
      do _ <- log_audit_event now "login_failure" "failure"
                (Some (User.id user)) ip_address user_agent
                [("email", VStr (User.email user));
                 ("reason", VStr "account_locked")];
      raise (HTTPException HTTP_403_FORBIDDEN
               "Account is temporarily locked due to failed login attempts")
    else if negb (verify_password password (User.password_hash user)) then
      let user :=
        User.set_failed_login_attempts
          (User.failed_login_attempts user + 1) user in
      if MAX_FAILED_LOGIN_ATTEMPTS <=? User.failed_login_attempts user then
        let locked :=
          now + timedelta_minutes ACCOUNT_LOCKOUT_DURATION_MINUTES in
        let user := User.set_locked_until (Some locked) user in
        do _ <- flush_user i user;
        do _ <- commit;
        do _ <- log_audit_event now "account_locked" "success"
                  (Some (User.id user)) ip_address user_agent
                  [("email", VStr (User.email user));
                   ("attempts", VInt (User.failed_login_attempts user));
                   ("locked_until", VDatetime locked)];
        raise (HTTPException HTTP_403_FORBIDDEN
                 "Account locked due to too many failed login attempts")
      else
        do _ <- flush_user i user;
        do _ <- commit;
        do _ <- log_audit_event now "login_failure" "failure"
                  (Some (User.id user)) ip_address user_agent
                  [("email", VStr (User.email user));
                   ("reason", VStr "invalid_password");
                   ("attempt", VInt (User.failed_login_attempts user))];
        raise (HTTPException HTTP_401_UNAUTHORIZED "Invalid credentials")
    else
      let user := User.set_failed_login_attempts 0 user in
      let user := User.set_locked_until None user in
      let user := User.set_last_login_at (Some now) user in
      do _ <- flush_user i user;
      do _ <- commit;
      let access_token :=
        create_access_token now
          (<["role" := VStr (User.role user)]>
             {["sub" := VStr (uuid_str (User.id user))]}) None in
      let refresh_token :=
        create_refresh_token now
          {["sub" := VStr (uuid_str (User.id user))]} None in
      let session :=
        SessionModel.mk (User.id user) refresh_token ip_address user_agent
          (_detect_device_type user_agent)
          (now + timedelta_days REFRESH_TOKEN_EXPIRE_DAYS) false now now in
      do sid <- add_session session;
      do _ <- commit;
      do _ <- log_audit_event now "login_success" "success"
                (Some (User.id user)) ip_address user_agent
                [("email", VStr (User.email user));
                 ("session_id", VStr (uuid_str (Z.of_nat sid)))];
      ret (user, access_token, refresh_token)
  end.

(** [AuthService.refresh_access_token].  [session.user] loads the row
    of [users] the foreign key points to. *)
Definition refresh_access_token (now : datetime) (refresh_token : string)
  (ip_address user_agent : option string) : M (string * string) :=
  do r <- query_first_session
            (λ s, SessionModel.refresh_token s = refresh_token);
  match r with
  | None =>
    raise (HTTPException HTTP_401_UNAUTHORIZED "Invalid refresh token")
  | Some (i, session) =>
    do valid <- lift (SessionModel.is_valid now session);
    if negb valid then
      raise (HTTPException HTTP_401_UNAUTHORIZED
               "Refresh token has expired or been revoked")
    else
      do owner <- query_first_user
                    (λ u, User.id u = SessionModel.user_id session);
      match owner with
      | None =>
        raise (HTTPException HTTP_401_UNAUTHORIZED "User not found or inactive")
      | Some (_, user) =>
        if negb (User.is_active user) then
          raise (HTTPException HTTP_401_UNAUTHORIZED
                   "User not found or inactive")
        else
          let new_access_token :=
            create_access_token now
              (<["role" := VStr (User.role user)]>
                 {["sub" := VStr (uuid_str (User.id user))]}) None in
          let new_refresh_token :=
            create_refresh_token now
              {["sub" := VStr (uuid_str (User.id user))]} None in
          do _ <- flush_session i (SessionModel.set_is_revoked true session);
          let new_session :=
            SessionModel.mk (User.id user) new_refresh_token
              (py_or ip_address (SessionModel.ip_address session))
              (py_or user_agent (SessionModel.user_agent session))
              (SessionModel.device_type session)
              (now + timedelta_days REFRESH_TOKEN_EXPIRE_DAYS)
              false now now in
          do sid <- add_session new_session;
          do _ <- commit;
          do _ <- log_audit_event now "token_refresh" "success"
                    (Some (User.id user)) ip_address user_agent
                    [("session_id", VStr (uuid_str (Z.of_nat sid)))];
          ret (new_access_token, new_refresh_token)
      end
  end.

(** The bulk [UPDATE sessions SET is_revoked = true WHERE user_id = :id
    AND is_revoked = false]. *)
Definition revoke_all (uid : UUID) (l : list SessionModel.t)
  : list SessionModel.t :=
  (λ s, if bool_decide (SessionModel.user_id s = uid)
           && bool_decide (SessionModel.is_revoked s = false)
        then SessionModel.set_is_revoked true s else s) <$> l.

(** [AuthService.logout_user].  [if refresh_token:] is Python
    truthiness: [None] and the empty string take the else branch. *)
Definition logout_user (now : datetime) (user : User.t)
  (refresh_token : option string)
  (ip_address user_agent : option string) : M unit :=
  do _ <-
    (if truthy refresh_token then
       do r <- query_first_session
                 (λ s, SessionModel.user_id s = User.id user
                       ∧ Some (SessionModel.refresh_token s) = refresh_token);
       match r with
       | Some (i, session) =>
         flush_session i (SessionModel.set_is_revoked true session)
       | None => ret ()
       end
     else
       do t <- get_working;
       put_working
         (mkTables (users t) (revoke_all (User.id user) (sessions t))
            (audit_log t)));
  do _ <- commit;
  do _ <- log_audit_event now "logout" "success" (Some (User.id user))
            ip_address user_agent
            [("logout_type",
              VStr (if truthy refresh_token then "single" else "all_devices"))];
  ret ().

(** ** app/services/user_service.py *)

(** [UserService.get_user_by_id]. *)
Definition get_user_by_id (user_id : string) : M (option User.t) :=
  match uuid_parse user_id with
  | None => ret None
  | Some user_uuid =>
    do r <- query_first_user (λ u, User.id u = user_uuid);
    ret (snd <$> r)
  end.

(** The loop of [update_user_profile] over [update_data.items()]. *)
Fixpoint apply_updates (update_data : list (string * PyVal)) (user : User.t)
  : Result User.t :=
  match update_data with
  | [] => Ok user
  | (field, value) :: rest =>
    if bool_decide (field ∈ ["first_name"; "last_name"; "preferences"])
       && negb (match value with VNone => true | _ => false end)
    then
      match User.setattr field value user with
      | Some user' => apply_updates rest user'
      | None => Raise TypeError
      end
    else apply_updates rest user
  end.

(** [db.refresh(user)]: reload the object from its row. *)
Definition refresh_user (i : nat) : M User.t :=
  do t <- get_working;
  match users t !! i with
  | Some u => ret u
  | None => raise SQLAlchemyError
  end.

(** [UserService.update_user_profile].  The ORM object [user] is the
    row position [i] with the attribute values [user]; [update_data] is
    the dictionary's items in iteration order. *)
Definition update_user_profile (now : datetime) (i : nat) (user : User.t)
  (update_data : list (string * PyVal))
  (ip_address user_agent : option string) : M User.t :=
  match apply_updates update_data user with
  | Raise e => raise e
  | Ok user =>
    do _ <- flush_user i user;
    do _ <- commit;
    do user <- refresh_user i;
    do _ <- log_audit_event now "profile_updated" "success"
              (Some (User.id user)) ip_address user_agent
              [("updated_fields", VList (VStr ∘ fst <$> update_data))];
    ret user
  end.

(** [UserService.change_password]. *)
Definition change_password (now : datetime) (i : nat) (user : User.t)
  (current_password new_password : string)
  (ip_address user_agent : option string) : M unit :=
  if negb (verify_password current_password (User.password_hash user)) then
    do _ <- log_audit_event now "password_change" "failure"
              (Some (User.id user)) ip_address user_agent
              [("reason", VStr "invalid_current_password")];
    raise (HTTPException HTTP_400_BAD_REQUEST "Current password is incorrect")
  else
    let user := User.set_password_hash (hash_password new_password) user in
    do _ <- flush_user i user;
    do _ <- commit;
    do _ <- log_audit_event now "password_change" "success"
              (Some (User.id user)) ip_address user_agent [];
    ret ().

(** ** Request sequences *)

(** What a request leaves committed. *)
Definition committed {A} (res : Result A * Db) : Tables := durable (snd res).

(** The state change and its audit record are committed by separate
    transactions, the state change first: when the store refuses the
    audit row, a call that writes one on a healthy store raises the
    storage error, no audit row is added, and the account and session
    state left committed is the state the call leaves on a healthy
    store. *)
Definition committed_before_audit {A} (op : M A) (t : Tables) : Prop :=
  (audit_log (committed (op (connect t true))) ≠ audit_log t →
   fst (op (connect t false)) = Raise SQLAlchemyError)
  ∧ users (committed (op (connect t false)))
    = users (committed (op (connect t true)))
  ∧ sessions (committed (op (connect t false)))
    = sessions (committed (op (connect t true)))
  ∧ audit_log (committed (op (connect t false))) = audit_log t.

(** A run of login requests for one identifier, each with its own clock
    reading and password, each on a fresh connection to a healthy store
    holding what the previous request left committed. *)
Fixpoint login_attempts (attempts : list (datetime * string))
  (email_or_username : string) (ip_address user_agent : option string)
  (t : Tables) : Tables :=
  match attempts with
  | [] => t
  | (now, password) :: rest =>
    login_attempts rest email_or_username ip_address user_agent
      (committed (authenticate_user now email_or_username password
                    ip_address user_agent (connect t true)))
  end.

End Services.

(** ** app/api/v1/auth.py and app/api/v1/users.py *)

Module TokenResponse.
Record t : Type := mk {
  access_token : string;
  refresh_token : string;
  token_type : string;
  expires_in : Z
}.
End TokenResponse.

Module AuthRouter.
Section Routes.
Context `{settings : Settings} `{prims : Primitives}.

(** [POST /auth/login].  [client_host] is [request.client.host], or
    [None] when the request has no client; [user_agent] is the
    [user-agent] header. *)
Definition login (now : datetime) (client_host user_agent : option string)
  (email_or_username password : string) : M TokenResponse.t :=
  let ip_address := client_host in
  do r <- authenticate_user now email_or_username password
            ip_address user_agent;
  let '(_, access_token, refresh_token) := r in
  ret (TokenResponse.mk access_token refresh_token "bearer"
         (ACCESS_TOKEN_EXPIRE_MINUTES * 60)).

(** [POST /auth/refresh]. *)
Definition refresh_token (now : datetime)
  (client_host user_agent : option string) (refresh_token : string)
  : M TokenResponse.t :=
  let ip_address := client_host in
  do r <- refresh_access_token now refresh_token ip_address user_agent;
  let '(new_access_token, new_refresh_token) := r in
  ret (TokenResponse.mk new_access_token new_refresh_token "bearer"
         (ACCESS_TOKEN_EXPIRE_MINUTES * 60)).

End Routes.
End AuthRouter.

Module UsersRouter.
Section Routes.
Context `{settings : Settings} `{prims : Primitives}.

(** The routes depend on [get_current_user]; [token] is the bearer
    token of the request. *)

(** [GET /users/me]. *)
Definition get_current_user_profile (now : datetime) (token : string)
  : M User.t :=
  do current_user <- get_current_user now token;
  ret (snd current_user).

(** [PATCH /users/me].  [update_dict] is the dump of the request body
    without its unset fields. *)
Definition update_current_user_profile (now : datetime) (token : string)
  (client_host user_agent : option string)
  (update_dict : list (string * PyVal)) : M User.t :=
  do current_user <- get_current_user now token;
  let ip_address := client_host in
  update_user_profile now (fst current_user) (snd current_user) update_dict
    ip_address user_agent.

(** [POST /users/me/password]. *)
Definition change_password (now : datetime) (token : string)
  (client_host user_agent : option string)
  (current_password new_password : string) : M string :=
  do current_user <- get_current_user now token;
  let ip_address := client_host in
  do _ <- change_password now (fst current_user) (snd current_user)
            current_password new_password ip_address user_agent;
  ret "Password changed successfully".

End Routes.
End UsersRouter.

(** ** app/schemas/user.py and app/core/config.py: validators *)

(** [str.isupper()], [str.islower()] and [str.isdigit()] of one
    character, on ASCII. *)
Definition isupper (c : Ascii.ascii) : bool :=
  let n := Ascii.nat_of_ascii c in ((65 <=? n) && (n <=? 90))%nat.

Definition islower (c : Ascii.ascii) : bool :=
  let n := Ascii.nat_of_ascii c in ((97 <=? n) && (n <=? 122))%nat.

Definition isdigit (c : Ascii.ascii) : bool :=
  let n := Ascii.nat_of_ascii c in ((48 <=? n) && (n <=? 57))%nat.

Definition special_chars : string := "!@#$%^&*()_+-=[]{}|;:,.<>?".

(** [c in special_chars] for one character [c]. *)
Definition is_special (c : Ascii.ascii) : bool :=
  bool_decide (c ∈ String.list_ascii_of_string special_chars).

(** A pydantic validator returns the value or raises [ValueError]. *)
Inductive Validated (A : Type) : Type :=
| Valid (v : A)
| ValueError (msg : string).
Arguments Valid {A} v.
Arguments ValueError {A} msg.

(** [PasswordChangeRequest.validate_password_strength]. *)
Definition validate_password_strength (v : string) : Validated string :=
  let chars := String.list_ascii_of_string v in
  if (String.length v <? 8)%nat then
    ValueError "Password must be at least 8 characters long"
  else if negb (existsb isupper chars) then
    ValueError "Password must contain at least one uppercase letter"
  else if negb (existsb islower chars) then
    ValueError "Password must contain at least one lowercase letter"
  else if negb (existsb isdigit chars) then
    ValueError "Password must contain at least one digit"
  else if negb (existsb is_special chars) then
    ValueError "Password must contain at least one special character"
  else Valid v.

(** [Settings.validate_secret_key]. *)
Definition validate_secret_key (v : string) : Validated string :=
  if (String.length v <? 32)%nat then
    ValueError "SECRET_KEY must be at least 32 characters long"
  else Valid v.

(** ** app/models/notification.py and app/api/v1/notifications.py *)

Module Notification.
Record t : Type := mk {
  id : UUID;
  user_id : UUID;
  title : string;
  message : string;
  type : string;
  is_read : bool;
  read_at : option datetime;
  action_url : option string;
  notification_metadata : PyVal;
  created_at : datetime
}.

Definition set_is_read (b : bool) (n : t) : t :=
  mk (id n) (user_id n) (title n) (message n) (type n) b (read_at n)
     (action_url n) (notification_metadata n) (created_at n).
End Notification.

(** What [getattr] gives on an ORM object: the value of a mapped
    column, or SQLAlchemy's [MetaData] registry, which every model class
    inherits from the declarative base as the attribute [metadata]. *)
Inductive Attribute : Type :=
| Column (v : PyVal)
| MetaData.

Module NotificationResponse.
(** The response fields that are not copied as they are; [metadata] is
    [Dict[str, Any]], a required field. *)
Record t : Type := mk {
  row : Notification.t;
  metadata : list (string * PyVal)
}.

(** The attribute the schema reads for its field [metadata].  The JSON
    column is mapped as [notification_metadata], so [metadata] on a
    [Notification] object is the inherited registry. *)
Definition getattr_metadata (n : Notification.t) : Attribute := MetaData.

(** Validation of one ORM row ([from_attributes = True]). *)
Definition model_validate (n : Notification.t) : Result t :=
  match getattr_metadata n with
  | Column (VDict kv) => Ok (mk n kv)
  | _ => Raise ValidationError
  end.
End NotificationResponse.

Module NotificationListResponse.
Record t : Type := mk {
  notifications : list NotificationResponse.t;
  total : nat;
  unread_count : nat
}.
End NotificationListResponse.

(** Validation of a [list[NotificationResponse]] field, item by item. *)
Fixpoint validate_notifications (rows : list Notification.t)
  : Result (list NotificationResponse.t) :=
  match rows with
  | [] => Ok []
  | n :: rest =>
    match NotificationResponse.model_validate n with
    | Raise e => Raise e
    | Ok item =>
      match validate_notifications rest with
      | Raise e => Raise e
      | Ok items => Ok (item :: items)
      end
    end
  end.

Definition HTTP_404_NOT_FOUND : Z := 404.

(** The notification routes read and write the [notifications] table
    only; [current_user] is what [get_current_user] returned. *)

(** [ORDER BY created_at DESC]; the order of rows with equal timestamps
    is the store's choice, here that of a merge sort. *)
Definition newer_or_same (a b : Notification.t) : Prop :=
  Notification.created_at b ≤ Notification.created_at a.

#[global] Instance newer_or_same_dec : RelDecision newer_or_same.
Proof. intros a b. unfold newer_or_same. apply _. Defined.

Definition newest_first (l : list Notification.t) : list Notification.t :=
  merge_sort newer_or_same l.

(** [GET /notifications].  [limit] and [offset] have passed the
    [Query] bounds ([1 <= limit <= 100], [offset >= 0]).  The response
    model is built from the fetched ORM rows. *)
Definition get_notifications (current_user : User.t)
  (table : list Notification.t) (limit offset : nat) (unread_only : bool)
  : Result NotificationListResponse.t :=
  let query :=
    filter (λ n, Notification.user_id n = User.id current_user) table in
  let query :=
    if unread_only
    then filter (λ n, Notification.is_read n = false) query
    else query in
  let total := length query in
  let unread_count :=
    length (filter (λ n, Notification.user_id n = User.id current_user
                         ∧ Notification.is_read n = false) table) in
  let notifications := take limit (drop offset (newest_first query)) in
  match validate_notifications notifications with
  | Ok items => Ok (NotificationListResponse.mk items total unread_count)
  | Raise e => Raise e
  end.

(** [GET /notifications/unread/count]. *)
Definition get_unread_count (current_user : User.t)
  (table : list Notification.t) : nat :=
  length (filter (λ n, Notification.user_id n = User.id current_user
                       ∧ Notification.is_read n = false) table).

(** The rows fetched by [mark_notifications_as_read], each with its
    position in the table. *)
Definition fetch_for_marking (notification_ids : list UUID)
  (current_user : User.t) (table : list Notification.t)
  : list (nat * Notification.t) :=
  filter (λ kn, Notification.id kn.2 ∈ notification_ids
                ∧ Notification.user_id kn.2 = User.id current_user)
    (imap pair table).

(** The loop over the fetched rows. *)
Fixpoint mark_loop (notifications : list (nat * Notification.t))
  (table : list Notification.t) (updated_count : nat)
  : list Notification.t * nat :=
  match notifications with
  | [] => (table, updated_count)
  | (k, notification) :: rest =>
    if negb (Notification.is_read notification) then
      mark_loop rest
        (<[k := Notification.set_is_read true notification]> table)
        (updated_count + 1)
    else mark_loop rest table updated_count
  end.

(** [PATCH /notifications/read]: the count of updated rows and the
    table after the commit, or 404 and the table as it was.  [read_at]
    is left to a database trigger and is not written here. *)
Definition mark_notifications_as_read (notification_ids : list UUID)
  (current_user : User.t) (table : list Notification.t)
  : Result nat * list Notification.t :=
  let notifications := fetch_for_marking notification_ids current_user table in
  if bool_decide (length notifications ≠ length notification_ids) then
    (Raise (HTTPException HTTP_404_NOT_FOUND
              "One or more notifications not found"), table)
  else
    let '(table', updated_count) := mark_loop notifications table 0 in
    (Ok updated_count, table').

(** The table with the requested rows of the caller marked as read,
    written as one pass over the table; [mark_loop] is compared with
    it. *)
Definition marked_as_read (notification_ids : list UUID)
  (current_user : User.t) (table : list Notification.t)
  : list Notification.t :=
  (λ n, if bool_decide (Notification.id n ∈ notification_ids
                        ∧ Notification.user_id n = User.id current_user)
        then Notification.set_is_read true n else n) <$> table.

(** ** Store evolution *)

Section Evolution.
Context `{settings : Settings} `{prims : Primitives}.

(** The ways a service call rewrites an account row: a counted failure,
    a failure that locks, the reset of a successful login, a new password
    hash, and a profile update (which keeps everything but the three
    profile fields). *)
Inductive account_change : User.t → User.t → Prop :=
| failure_counted u :
    User.failed_login_attempts u + 1 < MAX_FAILED_LOGIN_ATTEMPTS →
    account_change u
      (User.set_failed_login_attempts (User.failed_login_attempts u + 1) u)
| failure_locks u l :
    MAX_FAILED_LOGIN_ATTEMPTS ≤ User.failed_login_attempts u + 1 →
    account_change u
      (User.set_locked_until (Some l)
         (User.set_failed_login_attempts
            (User.failed_login_attempts u + 1) u))
| login_resets u now :
    account_change u
      (User.set_last_login_at (Some now)
         (User.set_locked_until None (User.set_failed_login_attempts 0 u)))
| password_changed u h :
    account_change u (User.set_password_hash h u)
| profile_updated u u' :
    User.id u' = User.id u →
    User.email u' = User.email u →
    User.username u' = User.username u →
    User.password_hash u' = User.password_hash u →
    User.role u' = User.role u →
    User.is_active u' = User.is_active u →
    User.mfa_enabled u' = User.mfa_enabled u →
    User.failed_login_attempts u' = User.failed_login_attempts u →
    User.locked_until u' = User.locked_until u →
    User.last_login_at u' = User.last_login_at u →
    account_change u u'.

(** The store steps the services are made of. *)
Inductive evolves (t : Tables) : Tables → Prop :=
| evolves_refl : evolves t t
| evolves_audit t1 e : evolves t t1 → evolves t (audited t1 e)
| evolves_account t1 i u u' :
    evolves t t1 → users t1 !! i = Some u → account_change u u' →
    evolves t (with_user i u' t1)
| evolves_revoke t1 i s :
    evolves t t1 → sessions t1 !! i = Some s →
    evolves t (with_session i (SessionModel.set_is_revoked true s) t1)
| evolves_revoke_all t1 uid :
    evolves t t1 →
    evolves t (mkTables (users t1) (revoke_all uid (sessions t1))
                 (audit_log t1))
| evolves_new_session t1 s :
    evolves t t1 → SessionModel.refresh_token s ∉ tokens t1 →
    evolves t (with_new_session s t1).

(** One request: a service call on a fresh connection, on a healthy or
    a failing store, with what it leaves committed.  The account object
    handed to the profile and password services is attached to its
    row. *)
Inductive request (t : Tables) : Tables → Prop :=
| request_login now ident password ip ua b :
    request t (committed (authenticate_user now ident password ip ua
                            (connect t b)))
| request_refresh now token ip ua b :
    request t (committed (refresh_access_token now token ip ua
                            (connect t b)))
| request_logout now user token ip ua b :
    request t (committed (logout_user now user token ip ua (connect t b)))
| request_profile now i user update_data ip ua b :
    users t !! i = Some user →
    request t (committed (update_user_profile now i user update_data ip ua
                            (connect t b)))
| request_password now i user current_password new_password ip ua b :
    users t !! i = Some user →
    request t (committed (change_password now i user current_password
                            new_password ip ua (connect t b))).

(** Any number of requests, one after the other. *)
Inductive requests (t : Tables) : Tables → Prop :=
| requests_none : requests t t
| requests_more t1 t2 : requests t t1 → request t1 t2 → requests t t2.

(** The data model's invariant on an account: the counter is not
    negative, and a lockout expiry is only set on a counter at or above
    the threshold. *)
Definition lockout_consistent (u : User.t) : Prop :=
  0 ≤ User.failed_login_attempts u
  ∧ (is_Some (User.locked_until u) →
     MAX_FAILED_LOGIN_ATTEMPTS ≤ User.failed_login_attempts u).

End Evolution.

(** ** A concrete instance, for running the services *)

(** The wire form of a claim; a [datetime] is written as its POSIX
    timestamp in whole seconds. *)
Definition render_val (v : option PyVal) : string :=
  match v with
  | Some (VStr s) => s
  | Some (VInt z) => pretty z
  | Some (VDatetime t) => pretty (t `div` 1000000)
  | _ => ""
  end.

(** A deterministic token format: the claims written out in a fixed
    order. *)
Definition plain_encode (claims : gmap string PyVal) : string :=
  render_val (claims !! "type") +:+ "." +:+ render_val (claims !! "sub")
  +:+ "." +:+ render_val (claims !! "role")
  +:+ "." +:+ render_val (claims !! "exp").

Fixpoint parse_digits (s : string) (acc : Z) : option Z :=
  match s with
  | EmptyString => Some acc
  | String a s' =>
    let n := Z.of_nat (Ascii.nat_of_ascii a) in
    if (48 <=? n) && (n <=? 57) then parse_digits s' (10 * acc + (n - 48))
    else None
  end.

Definition plain_uuid_parse (s : string) : option UUID :=
  if bool_decide (s = "") then None else parse_digits s 0.

(** The [exp] claim on the wire, in whole seconds. *)
Definition claims_exp (claims : gmap string PyVal) : Z :=
  match claims !! "exp" with
  | Some (VDatetime t) => t `div` 1000000
  | Some (VInt z) => z
  | _ => 0
  end.

(** Decoding accepts the tokens of a given issue list that have not
    expired, and gives their claims with [exp] as it is on the wire. *)
Definition plain_decode (issued : list (gmap string PyVal))
  (now : datetime) (token : string) : option (gmap string PyVal) :=
  (λ c, <["exp" := VInt (claims_exp c.2)]> c.2)
  <$> list_find
        (λ c, plain_encode c = token ∧ now `div` 1000000 ≤ claims_exp c)
        issued.

Definition plain_primitives (issued : list (gmap string PyVal))
  : Primitives := {|
  pwd_context_hash := λ p, "$2b$12$" +:+ p;
  pwd_context_verify := λ p h, bool_decide (h = "$2b$12$" +:+ p);
  jwt_encode := plain_encode;
  jwt_decode := plain_decode issued;
  uuid_str := λ u, pretty u;
  uuid_parse := plain_uuid_parse
|}.

(** The seeded account of the spec's scenarios, at a given counter and
    lockout expiry. *)
Definition chris (failed : Z) (locked : option datetime) : User.t :=
  User.mk 3 "chris@portal.dev" "chris_p" "$2b$12$Chris@123!"
    (VStr "Chris") (VStr "Pannapara") "user" true false failed locked
    (VDict [("theme", VStr "light")]) None.

Definition admin : User.t :=
  User.mk 1 "admin@portal.dev" "admin" "$2b$12$Admin@123!"
    (VStr "Ada") (VStr "Admin") "admin" true false 0 None (VDict []) None.

Definition laptop (revoked : bool) : SessionModel.t :=
  SessionModel.mk 3 "refresh.3.laptop" (Some "10.0.0.7") (Some "Mozilla")
    "desktop" 5000 revoked 10 10.

Definition phone (revoked : bool) : SessionModel.t :=
  SessionModel.mk 3 "refresh.3.phone" (Some "10.0.0.8") (Some "iPhone")
    "mobile" 5000 revoked 20 20.

Definition admin_console : SessionModel.t :=
  SessionModel.mk 1 "refresh.1.console" None None "unknown" 5000 false 30 30.

Definition seed (failed : Z) (locked : option datetime) : Tables :=
  mkTables [admin; chris failed locked]
    [laptop false; admin_console; phone false] [].

(** The claims of a refresh token minted for account 3 at clock 1000
    under the default settings, and primitives whose codec has issued
    it. *)
Definition demo_refresh_claims : gmap string PyVal :=
  @refresh_claims default_settings 1000 {["sub" := VStr "3"]} None.

Definition demo_primitives : Primitives :=
  plain_primitives [demo_refresh_claims].

(** The claims of an access token minted for account 3 at clock 1000,
    and primitives whose codec has issued both tokens of that login. *)
Definition demo_access_claims : gmap string PyVal :=
  @access_claims default_settings 1000
    (<["role" := VStr "user"]> {["sub" := VStr "3"]}) None.

Definition portal_primitives : Primitives :=
  plain_primitives [demo_access_claims; demo_refresh_claims].

(** A notifications table: three rows of account 3, one of account 1. *)
Definition welcome (read : bool) : Notification.t :=
  Notification.mk 11 3 "Welcome" "Your account is ready" "info" read None
    None VNone 100.

Definition invoice (read : bool) : Notification.t :=
  Notification.mk 12 3 "Invoice" "A new invoice is available" "action"
    read None (Some "/invoices/7") VNone 300.

Definition maintenance : Notification.t :=
  Notification.mk 13 3 "Maintenance" "Planned downtime on Sunday" "warning"
    true (Some 250) None VNone 200.

Definition admin_notice : Notification.t :=
  Notification.mk 14 1 "Report" "The weekly report is ready" "info" false
    None None VNone 150.

Definition inbox : list Notification.t :=
  [welcome false; admin_notice; invoice false; maintenance].

(** * Properties *)

Section Properties.
Context `{settings : Settings} `{prims : Primitives}.

(** ** Session validity *)

Lemma datetime_lt_naive_aware (now l : datetime) :
  datetime_lt (utcnow now) (timestamptz l) = Raise TypeError.
Proof. done. Qed.

Lemma datetime_gt_naive_aware (now l : datetime) :
  datetime_gt (utcnow now) (timestamptz l) = Raise TypeError.
Proof. done. Qed.

Lemma is_valid_revoked (now : datetime) (s : SessionModel.t) :
  SessionModel.is_revoked s = true → SessionModel.is_valid now s = Ok false.
Proof. intros Hrev. unfold SessionModel.is_valid. by rewrite Hrev. Qed.

Lemma is_valid_unrevoked (now : datetime) (s : SessionModel.t) :
  SessionModel.is_revoked s = false →
  SessionModel.is_valid now s = Raise TypeError.
Proof.
  intros Hrev. unfold SessionModel.is_valid, SessionModel.is_expired.
  by rewrite Hrev, datetime_gt_naive_aware.
Qed.

(** C7, what the code does: on a row of the store the validity check
    answers only for a revoked session, with [False]; for a session that
    is not revoked it compares the naive clock reading with the
    timezone-aware [expires_at] and raises [TypeError], before and after
    the expiry alike.  It never answers [True]. *)
Theorem session_validity_check_raises_unless_revoked
  (now : datetime) (s : SessionModel.t) :
  SessionModel.is_valid now s
  = (if SessionModel.is_revoked s then Ok false else Raise TypeError)
  ∧ SessionModel.is_expired now s = Raise TypeError
  ∧ SessionModel.is_valid now s ≠ Ok true.
Proof.
  split_and!.
  - destruct (SessionModel.is_revoked s) eqn:Hrev.
    + by apply is_valid_revoked.
    + by apply is_valid_unrevoked.
  - apply datetime_gt_naive_aware.
  - destruct (SessionModel.is_revoked s) eqn:Hrev.
    + by rewrite is_valid_revoked.
    + by rewrite is_valid_unrevoked.
Qed.

(** ** Access guard *)

Lemma val_is_str_false (v : option PyVal) (s : string) :
  v ≠ Some (VStr s) → val_is_str v s = false.
Proof.
  intros Hne. destruct v as [[| | |x| | |]|]; simpl; try reflexivity.
  apply bool_decide_eq_false. intros ->. by apply Hne.
Qed.

Lemma refresh_claims_type (now : datetime) (data : gmap string PyVal)
  (expires_delta : option Z) :
  refresh_claims now data expires_delta !! "type" = Some (VStr "refresh").
Proof. unfold refresh_claims. apply lookup_insert_eq. Qed.

(** C8: a bearer token whose decoded claims do not carry the kind
    [access] is rejected with 401 "Invalid token type", whatever the
    store holds and without touching it; this covers every token minted
    by [create_refresh_token] that the codec decodes to the claims it was
    minted from. *)
Theorem access_guard_rejects_non_access_kind
  (now : datetime) (token : string) (payload : gmap string PyVal) (db : Db) :
  decode_token now token = Some payload →
  payload !! "type" ≠ Some (VStr "access") →
  get_current_user now token db
  = (Raise (HTTPException HTTP_401_UNAUTHORIZED "Invalid token type"), db).
Proof.
  intros Hdec Hkind. unfold get_current_user. rewrite Hdec.
  by rewrite (val_is_str_false _ _ Hkind).
Qed.

Lemma access_guard_rejects_refresh_token
  (issued now : datetime) (data : gmap string PyVal)
  (expires_delta : option Z) (db : Db) :
  decode_token now (create_refresh_token issued data expires_delta)
  = Some (refresh_claims issued data expires_delta) →
  get_current_user now (create_refresh_token issued data expires_delta) db
  = (Raise (HTTPException HTTP_401_UNAUTHORIZED "Invalid token type"), db).
Proof.
  intros Hdec. unfold get_current_user. rewrite Hdec.
  by rewrite refresh_claims_type.
Qed.

(** ** Refresh *)

Lemma refresh_not_found (now : datetime) (token : string)
  (ip_address user_agent : option string) (db : Db) :
  list_find (λ s, SessionModel.refresh_token s = token)
    (sessions (working db)) = None →
  refresh_access_token now token ip_address user_agent db
  = (Raise (HTTPException HTTP_401_UNAUTHORIZED "Invalid refresh token"), db).
Proof.
  intros Hfind. unfold refresh_access_token, query_first_session, bind,
    get_working, ret. simpl. by rewrite Hfind.
Qed.

Lemma refresh_revoked (now : datetime) (token : string)
  (ip_address user_agent : option string) (db : Db)
  (i : nat) (s : SessionModel.t) :
  list_find (λ s, SessionModel.refresh_token s = token)
    (sessions (working db)) = Some (i, s) →
  SessionModel.is_revoked s = true →
  refresh_access_token now token ip_address user_agent db
  = (Raise (HTTPException HTTP_401_UNAUTHORIZED
              "Refresh token has expired or been revoked"), db).
Proof.
  intros Hfind Hrev. unfold refresh_access_token, query_first_session, bind,
    get_working, ret, lift. simpl. rewrite Hfind.
  by rewrite (is_valid_revoked now s Hrev).
Qed.

Lemma refresh_unrevoked (now : datetime) (token : string)
  (ip_address user_agent : option string) (db : Db)
  (i : nat) (s : SessionModel.t) :
  list_find (λ s, SessionModel.refresh_token s = token)
    (sessions (working db)) = Some (i, s) →
  SessionModel.is_revoked s = false →
  refresh_access_token now token ip_address user_agent db
  = (Raise TypeError, db).
Proof.
  intros Hfind Hrev. unfold refresh_access_token, query_first_session, bind,
    get_working, ret, lift. simpl. rewrite Hfind.
  by rewrite (is_valid_unrevoked now s Hrev).
Qed.

(** Every run of [refresh_access_token] ends in one of its first two
    checks or in the validity check itself. *)
Lemma refresh_access_token_run (now : datetime) (token : string)
  (ip_address user_agent : option string) (db : Db) :
  refresh_access_token now token ip_address user_agent db
  = match list_find (λ s, SessionModel.refresh_token s = token)
            (sessions (working db)) with
    | None =>
      (Raise (HTTPException HTTP_401_UNAUTHORIZED "Invalid refresh token"), db)
    | Some (_, s) =>
      if SessionModel.is_revoked s then
        (Raise (HTTPException HTTP_401_UNAUTHORIZED
                  "Refresh token has expired or been revoked"), db)
      else (Raise TypeError, db)
    end.
Proof.
  destruct (list_find _ (sessions (working db))) as [[i s]|] eqn:Hfind.
  - destruct (SessionModel.is_revoked s) eqn:Hrev.
    + by eapply refresh_revoked.
    + by eapply refresh_unrevoked.
  - by apply refresh_not_found.
Qed.

(** C4, as the code has it: a refresh token that no session carries and
    the token of a revoked session both fail with status 401 and leave
    the store untouched, with different detail messages. *)
Theorem refresh_failures_are_unauthorized
  (now : datetime) (token : string)
  (ip_address user_agent : option string) (db : Db) :
  (list_find (λ s, SessionModel.refresh_token s = token)
     (sessions (working db)) = None →
   refresh_access_token now token ip_address user_agent db
   = (Raise (HTTPException HTTP_401_UNAUTHORIZED "Invalid refresh token"),
      db))
  ∧ (∀ i s,
       list_find (λ s, SessionModel.refresh_token s = token)
         (sessions (working db)) = Some (i, s) →
       SessionModel.is_revoked s = true →
       refresh_access_token now token ip_address user_agent db
       = (Raise (HTTPException HTTP_401_UNAUTHORIZED
                   "Refresh token has expired or been revoked"), db)).
Proof.
  split.
  - apply refresh_not_found.
  - intros i s Hfind Hrev. by eapply refresh_revoked.
Qed.

(** C1, what the code does: a refresh with the token of a session that
    is not revoked never gets past the validity check.  Whatever the
    clock, the expiry, the owner and the client, the call raises
    [TypeError] and the connection is handed back as it was: the session
    is not revoked, no session is added, no token is returned. *)
Theorem refresh_of_unrevoked_session_raises
  (now : datetime) (token : string) (ip ua : option string) (db : Db)
  (i : nat) (s : SessionModel.t) :
  list_find (λ s, SessionModel.refresh_token s = token)
    (sessions (working db)) = Some (i, s) →
  SessionModel.is_revoked s = false →
  refresh_access_token now token ip ua db = (Raise TypeError, db)
  ∧ sessions (working (snd (refresh_access_token now token ip ua db))) !! i
    = Some s.
Proof.
  intros Hfind Hrev.
  rewrite (refresh_unrevoked now token ip ua db i s Hfind Hrev).
  split; [done|]. simpl.
  by apply list_find_Some in Hfind as (Hi & _).
Qed.

(** ** The store: commits and audit writes *)

Lemma unique_inserts_same_length (old new : list string) :
  length new = length old → unique_inserts old new = true.
Proof.
  intros Hlen. unfold unique_inserts.
  rewrite drop_ge by lia. done.
Qed.

Lemma unique_inserts_snoc (old new : list string) (t : string) :
  length new = length old →
  unique_inserts old (new ++ [t]) = bool_decide (t ∉ new).
Proof.
  intros Hlen. unfold unique_inserts. rewrite <- Hlen.
  rewrite drop_app_length, take_app_length. simpl.
  apply andb_true_r.
Qed.

(** A commit with no pending audit row does not depend on the health of
    the audit table. *)
Lemma commit_no_audit (d w : Tables) (b : bool) :
  length (audit_log w) = length (audit_log d) →
  commit (mkDb d w b)
  = if unique_inserts (tokens d) (tokens w)
    then (Ok (), connect w b)
    else (Raise SQLAlchemyError, connect d b).
Proof.
  intros Hlen. unfold commit, constraints_ok. simpl.
  rewrite Hlen, Nat.eqb_refl, orb_true_r, andb_true_r. done.
Qed.

(** The audit write on a clean connection: committed on a healthy store,
    raised and rolled back otherwise. *)
Lemma log_audit_event_connect (now : datetime) (action outcome : string)
  (user_id : option UUID) (ip_address user_agent : option string)
  (metadata : list (string * PyVal)) (t : Tables) (b : bool) :
  let e := AuditLog.mk user_id action ip_address user_agent outcome
             VNone now in
  log_audit_event now action outcome user_id ip_address user_agent metadata
    (connect t b)
  = if b then (Ok e, connect (audited t e) true)
    else (Raise SQLAlchemyError, connect t false).
Proof.
  intros e. unfold log_audit_event, add_audit, bind, get_working,
    put_working, commit, constraints_ok, connect, ret. simpl.
  rewrite unique_inserts_same_length by done. simpl.
  destruct b; simpl; [done|].
  rewrite length_app. simpl.
  replace (length (audit_log t) + 1 =? length (audit_log t))%nat with false;
    [done|].
  symmetry. apply Nat.eqb_neq. lia.
Qed.

(** ** Login *)

Lemma is_locked_no_lockout_expiry (now : datetime) (u : User.t) :
  User.locked_until u = None → User.is_locked now u = Ok false.
Proof. intros Hnone. unfold User.is_locked. by rewrite Hnone. Qed.

Lemma is_locked_lockout_expiry_set (now : datetime) (u : User.t)
  (l : datetime) :
  User.locked_until u = Some l → User.is_locked now u = Raise TypeError.
Proof.
  intros Hsome. unfold User.is_locked. rewrite Hsome.
  apply datetime_lt_naive_aware.
Qed.

(** The lock test answers only for a row without lockout expiry. *)
Lemma is_locked_answers (now : datetime) (u : User.t) (locked : bool) :
  User.is_locked now u = Ok locked
  ↔ locked = false ∧ User.locked_until u = None.
Proof.
  unfold User.is_locked. destruct (User.locked_until u) as [l|]; simpl.
  - split; [done|]. by intros [_ ?].
  - split; [by intros [= <-]|by intros [-> _]].
Qed.

Ltac audit_step :=
  rewrite ?log_audit_event_connect; unfold after_audit, raise, ret;
  repeat match goal with |- context [if ?b then _ else _] =>
    is_var b; destruct b end;
  try done.

Ltac commit_step :=
  rewrite commit_no_audit by done;
  rewrite ?unique_inserts_same_length
    by (simpl; unfold tokens; simpl; rewrite ?length_fmap, ?length_insert;
        done);
  simpl.

Section Login.
Variables (t : Tables) (b : bool) (now : datetime).
Variables (ident password : string) (ip ua : option string).

Lemma login_user_not_found :
  list_find (λ u, User.email u = ident ∨ User.username u = ident) (users t)
  = None →
  authenticate_user now ident password ip ua (connect t b)
  = after_audit b t
      (AuditLog.mk None "login_failure" ip ua "failure"
         VNone now)
      (Raise (HTTPException HTTP_401_UNAUTHORIZED "Invalid credentials")).
Proof.
  intros Hfind. unfold authenticate_user.
  unfold query_first_user, bind, get_working, ret. simpl. rewrite Hfind.
  fold (connect t b). audit_step.
Qed.

Variables (i : nat) (u : User.t).
Hypothesis Hfind :
  list_find (λ u, User.email u = ident ∨ User.username u = ident) (users t)
  = Some (i, u).

Lemma login_deactivated :
  User.is_active u = false →
  authenticate_user now ident password ip ua (connect t b)
  = after_audit b t
      (AuditLog.mk (Some (User.id u)) "login_failure" ip ua "failure"
         VNone now)
      (Raise (HTTPException HTTP_403_FORBIDDEN
                "Account has been deactivated")).
Proof.
  intros Hact. unfold authenticate_user.
  unfold query_first_user, bind, get_working, ret. simpl. rewrite Hfind.
  rewrite Hact. simpl. fold (connect t b). audit_step.
Qed.

(** With a lockout expiry on the row, the lock test itself raises; the
    call ends there, before any write. *)
Lemma login_lockout_expiry_set (l : datetime) :
  User.is_active u = true →
  User.locked_until u = Some l →
  authenticate_user now ident password ip ua (connect t b)
  = (Raise TypeError, connect t b).
Proof.
  intros Hact Hlock. unfold authenticate_user.
  unfold query_first_user, bind, get_working, ret, lift. simpl.
  rewrite Hfind, Hact. simpl.
  by rewrite (is_locked_lockout_expiry_set now u l Hlock).
Qed.

Hypothesis Hact : User.is_active u = true.
Hypothesis Hunlocked : User.is_locked now u = Ok false.

Lemma login_wrong_password_locks :
  verify_password password (User.password_hash u) = false →
  MAX_FAILED_LOGIN_ATTEMPTS ≤ User.failed_login_attempts u + 1 →
  let locked := now + timedelta_minutes ACCOUNT_LOCKOUT_DURATION_MINUTES in
  let u' :=
    User.set_locked_until (Some locked)
      (User.set_failed_login_attempts (User.failed_login_attempts u + 1) u) in
  authenticate_user now ident password ip ua (connect t b)
  = after_audit b (with_user i u' t)
      (AuditLog.mk (Some (User.id u)) "account_locked" ip ua "success"
         VNone now)
      (Raise (HTTPException HTTP_403_FORBIDDEN
         "Account locked due to too many failed login attempts")).
Proof.
  intros Hpw Hmax. unfold authenticate_user.
  unfold query_first_user, bind, get_working, ret, lift. simpl.
  rewrite Hfind, Hact. simpl. rewrite Hunlocked, Hpw. simpl.
  apply Z.leb_le in Hmax. rewrite Hmax.
  unfold flush_user, bind, get_working, put_working. simpl.
  commit_step. audit_step.
Qed.

Lemma login_wrong_password_counts :
  verify_password password (User.password_hash u) = false →
  User.failed_login_attempts u + 1 < MAX_FAILED_LOGIN_ATTEMPTS →
  let u' :=
    User.set_failed_login_attempts (User.failed_login_attempts u + 1) u in
  authenticate_user now ident password ip ua (connect t b)
  = after_audit b (with_user i u' t)
      (AuditLog.mk (Some (User.id u)) "login_failure" ip ua "failure"
         VNone now)
      (Raise (HTTPException HTTP_401_UNAUTHORIZED "Invalid credentials")).
Proof.
  intros Hpw Hmax. unfold authenticate_user.
  unfold query_first_user, bind, get_working, ret, lift. simpl.
  rewrite Hfind, Hact. simpl. rewrite Hunlocked, Hpw. simpl.
  apply Z.leb_gt in Hmax. rewrite Hmax.
  unfold flush_user, bind, get_working, put_working. simpl.
  commit_step. audit_step.
Qed.

(** The account reset and the session row of a successful login. *)
Lemma login_success :
  verify_password password (User.password_hash u) = true →
  let u' :=
    User.set_last_login_at (Some now)
      (User.set_locked_until None (User.set_failed_login_attempts 0 u)) in
  let access_token :=
    create_access_token now
      (<["role" := VStr (User.role u)]>
         {["sub" := VStr (uuid_str (User.id u))]}) None in
  let refresh_token :=
    create_refresh_token now {["sub" := VStr (uuid_str (User.id u))]} None in
  let session :=
    SessionModel.mk (User.id u) refresh_token ip ua (_detect_device_type ua)
      (now + timedelta_days REFRESH_TOKEN_EXPIRE_DAYS) false now now in
  authenticate_user now ident password ip ua (connect t b)
  = if bool_decide (refresh_token ∉ tokens t)
    then after_audit b (with_new_session session (with_user i u' t))
           (AuditLog.mk (Some (User.id u)) "login_success" ip ua "success"
              VNone now)
           (Ok (u', access_token, refresh_token))
    else (Raise SQLAlchemyError, connect (with_user i u' t) b).
Proof.
  intros Hpw. unfold authenticate_user.
  unfold query_first_user, bind, get_working, ret, lift. simpl.
  rewrite Hfind, Hact. simpl. rewrite Hunlocked, Hpw. simpl.
  unfold flush_user, bind, get_working, put_working. simpl.
  commit_step.
  unfold add_session, bind, get_working, put_working, ret. simpl.
  rewrite commit_no_audit by done. simpl.
  unfold tokens at 1 2. simpl. rewrite fmap_app. simpl.
  rewrite unique_inserts_snoc by done.
  fold (tokens t).
  case_bool_decide; simpl; [|done].
  audit_step.
Qed.

End Login.

(** ** Lockout policy *)

Lemma list_find_insert_same {A} (P : A → Prop) `{!∀ x, Decision (P x)}
  (l : list A) (i : nat) (x y : A) :
  list_find P l = Some (i, x) → P y →
  list_find P (<[i := y]> l) = Some (i, y).
Proof.
  intros (Hi & _ & Hleast)%list_find_Some Hy.
  apply list_find_insert_Some. right; left.
  split_and!; eauto using lookup_lt_Some.
Qed.

Lemma committed_after_audit {A} (b : bool) (t : Tables) (e : AuditLog.t)
  (r : Result A) :
  users (committed (after_audit b t e r)) = users t
  ∧ sessions (committed (after_audit b t e r)) = sessions t
  ∧ audit_log (committed (after_audit b t e r))
    = if b then audit_log t ++ [e] else audit_log t.
Proof. by destruct b. Qed.

(** C2, as the code has it: a wrong password that brings the counter of
    an active, unlocked account to the threshold sets [locked_until] to
    the clock plus the lockout duration, fails with 403, and adds exactly
    one audit row for the attempt, [account_locked] with outcome
    [success]. *)
Theorem lockout_sets_expiry_and_logs_account_locked
  (t : Tables) (now : datetime) (ident password : string)
  (ip ua : option string) (i : nat) (u : User.t) :
  list_find (λ u, User.email u = ident ∨ User.username u = ident) (users t)
  = Some (i, u) →
  User.is_active u = true →
  User.is_locked now u = Ok false →
  verify_password password (User.password_hash u) = false →
  User.failed_login_attempts u + 1 = MAX_FAILED_LOGIN_ATTEMPTS →
  let res := authenticate_user now ident password ip ua (connect t true) in
  let locked := now + timedelta_minutes ACCOUNT_LOCKOUT_DURATION_MINUTES in
  fst res = Raise (HTTPException HTTP_403_FORBIDDEN
                     "Account locked due to too many failed login attempts")
  ∧ users (committed res)
    = <[i := User.set_locked_until (Some locked)
               (User.set_failed_login_attempts MAX_FAILED_LOGIN_ATTEMPTS u)]>
        (users t)
  ∧ sessions (committed res) = sessions t
  ∧ ∃ e, audit_log (committed res) = audit_log t ++ [e]
         ∧ AuditLog.action e = "account_locked"
         ∧ AuditLog.outcome e = "success"
         ∧ AuditLog.user_id e = Some (User.id u).
Proof.
  intros Hfind Hact Hunl Hpw Hmax res locked. subst res.
  rewrite (login_wrong_password_locks t true now ident password ip ua i u)
    by (done || lia).
  rewrite Hmax. simpl. split_and!; try done. by eexists.
Qed.

(** Wrong password below the threshold: the counter goes up by one and
    nothing else in the account changes. *)
Lemma wrong_password_increments (t : Tables) (now : datetime)
  (ident password : string) (ip ua : option string) (i : nat) (u : User.t) :
  list_find (λ u, User.email u = ident ∨ User.username u = ident) (users t)
  = Some (i, u) →
  User.is_active u = true →
  User.is_locked now u = Ok false →
  verify_password password (User.password_hash u) = false →
  User.failed_login_attempts u + 1 < MAX_FAILED_LOGIN_ATTEMPTS →
  let res := authenticate_user now ident password ip ua (connect t true) in
  fst res = Raise (HTTPException HTTP_401_UNAUTHORIZED "Invalid credentials")
  ∧ users (committed res)
    = <[i := User.set_failed_login_attempts
               (User.failed_login_attempts u + 1) u]> (users t)
  ∧ sessions (committed res) = sessions t.
Proof.
  intros Hfind Hact Hunl Hpw Hmax res. subst res.
  by rewrite (login_wrong_password_counts t true now ident password ip ua i u).
Qed.

(** Correct password: the counter is reset, the lockout expiry cleared
    and the login time stamped, whatever the counter was; this is
    committed before the session row is inserted. *)
Lemma correct_password_resets (t : Tables) (b : bool) (now : datetime)
  (ident password : string) (ip ua : option string) (i : nat) (u : User.t) :
  list_find (λ u, User.email u = ident ∨ User.username u = ident) (users t)
  = Some (i, u) →
  User.is_active u = true →
  User.is_locked now u = Ok false →
  verify_password password (User.password_hash u) = true →
  let res := authenticate_user now ident password ip ua (connect t b) in
  users (committed res)
  = <[i := User.set_last_login_at (Some now)
             (User.set_locked_until None
                (User.set_failed_login_attempts 0 u))]> (users t).
Proof.
  intros Hfind Hact Hunl Hpw res. subst res.
  rewrite (login_success t b now ident password ip ua i u) by done.
  case_bool_decide; [by destruct b|done].
Qed.

Lemma set_failed_login_attempts_twice (n m : Z) (u : User.t) :
  User.set_failed_login_attempts n (User.set_failed_login_attempts m u)
  = User.set_failed_login_attempts n u.
Proof. done. Qed.

Lemma set_failed_login_attempts_same (u : User.t) :
  User.set_failed_login_attempts (User.failed_login_attempts u) u = u.
Proof. by destruct u. Qed.

(** [n] consecutive wrong passwords that stay below the threshold leave
    the counter [n] higher and the lockout expiry unset. *)
Lemma consecutive_failures (attempts : list (datetime * string))
  (ident : string) (ip ua : option string) :
  ∀ (t : Tables) (i : nat) (u : User.t),
  list_find (λ u, User.email u = ident ∨ User.username u = ident) (users t)
  = Some (i, u) →
  User.is_active u = true →
  User.locked_until u = None →
  Forall (λ a, verify_password a.2 (User.password_hash u) = false)
    attempts →
  User.failed_login_attempts u + Z.of_nat (length attempts)
  < MAX_FAILED_LOGIN_ATTEMPTS →
  users (login_attempts attempts ident ip ua t)
  = <[i := User.set_failed_login_attempts
             (User.failed_login_attempts u + Z.of_nat (length attempts)) u]>
      (users t)
  ∧ sessions (login_attempts attempts ident ip ua t) = sessions t.
Proof.
  induction attempts as [|[now password] rest IH];
    intros t i u Hfind Hact Hnone Hpw Hmax.
  - simpl. rewrite Z.add_0_r, set_failed_login_attempts_same.
    apply list_find_Some in Hfind as (Hi & _).
    by rewrite list_insert_id.
  - apply Forall_cons in Hpw as [Hpw Hrest]. simpl in Hpw.
    cbn [login_attempts length] in *.
    assert (Hunl : User.is_locked now u = Ok false)
      by by apply is_locked_no_lockout_expiry.
    destruct (wrong_password_increments t now ident password ip ua i u)
      as (_ & Husers & Hsess); [done..|lia|].
    set (t' := committed _) in *.
    set (u' := User.set_failed_login_attempts _ u) in Husers.
    destruct (IH t' i u') as [IHu IHs].
    + rewrite Husers. eapply list_find_insert_same; [exact Hfind|].
      apply list_find_Some in Hfind as (_ & HP & _). exact HP.
    + done.
    + done.
    + done.
    + subst u'. simpl. lia.
    + split; [|congruence].
      rewrite IHu, Husers, list_insert_insert_eq. subst u'.
      rewrite set_failed_login_attempts_twice. simpl.
      do 2 f_equal. lia.
Qed.

(** C5, what the code does.  For an active account without lockout
    expiry: a wrong password below the threshold raises the counter by
    exactly one and leaves the expiry unset; from a zero counter, [n]
    consecutive wrong passwords with [n] below the threshold give counter
    [n] and no expiry; a correct password resets the counter to 0,
    whatever it was.  For an active account with a lockout expiry on its
    row, in the future or in the past, the login raises [TypeError] at
    the lock test, whatever the password: the counter is not reset and
    the expiry is not cleared. *)
Theorem failed_attempt_counter_lifecycle
  (t : Tables) (now : datetime) (ident password : string)
  (ip ua : option string) (i : nat) (u : User.t) :
  list_find (λ u, User.email u = ident ∨ User.username u = ident) (users t)
  = Some (i, u) →
  User.is_active u = true →
  let res := authenticate_user now ident password ip ua (connect t true) in
  (User.locked_until u = None →
   (verify_password password (User.password_hash u) = false →
    User.failed_login_attempts u + 1 < MAX_FAILED_LOGIN_ATTEMPTS →
    ∃ u', users (committed res) !! i = Some u'
          ∧ User.failed_login_attempts u' = User.failed_login_attempts u + 1
          ∧ User.locked_until u' = None)
   ∧ (User.failed_login_attempts u = 0 →
      ∀ attempts : list (datetime * string),
        Forall (λ a, verify_password a.2 (User.password_hash u) = false)
          attempts →
        Z.of_nat (length attempts) < MAX_FAILED_LOGIN_ATTEMPTS →
        ∃ u', users (login_attempts attempts ident ip ua t) !! i = Some u'
              ∧ User.failed_login_attempts u' = Z.of_nat (length attempts)
              ∧ User.locked_until u' = None)
   ∧ (verify_password password (User.password_hash u) = true →
      ∃ u', users (committed res) !! i = Some u'
            ∧ User.failed_login_attempts u' = 0
            ∧ User.locked_until u' = None))
  ∧ (∀ l, User.locked_until u = Some l →
       res = (Raise TypeError, connect t true)
       ∧ users (committed res) !! i = Some u).
Proof.
  intros Hfind Hact res.
  pose proof Hfind as (Hu & _)%list_find_Some.
  assert (Hi : (i < length (users t))%nat) by by eapply lookup_lt_Some.
  split.
  - intros Hnone.
    assert (Hunl : User.is_locked now u = Ok false)
      by by apply is_locked_no_lockout_expiry.
    split_and!.
    + intros Hpw Hmax.
      destruct (wrong_password_increments t now ident password ip ua i u)
        as (_ & Husers & _); [done..|].
      fold res in Husers. rewrite Husers.
      eexists. split; [by apply list_lookup_insert_eq|]. by simpl.
    + intros Hzero attempts Hwrong Hlen.
      destruct (consecutive_failures attempts ident ip ua t i u)
        as [Husers _]; [done..|lia|].
      rewrite Husers. eexists. split; [by apply list_lookup_insert_eq|].
      simpl. split; [lia|done].
    + intros Hpw.
      pose proof (correct_password_resets t true now ident password ip ua i u
                    Hfind Hact Hunl Hpw) as Husers.
      fold res in Husers. rewrite Husers.
      eexists. split; [by apply list_lookup_insert_eq|done].
  - intros l Hlock. subst res.
    by rewrite (login_lockout_expiry_set t true now ident password ip ua i u
                  Hfind l Hact Hlock).
Qed.

(** C6, what the code does: for an active account whose [locked_until]
    is set, every login attempt, at any time before or after that
    instant and with any password, raises [TypeError] at the lock test.
    No account, session or audit row is written and the password is not
    consulted; the 403 of the lock branch is never reached, and neither
    is the password check once [locked_until] has passed. *)
Theorem locked_account_rejects_every_login
  (t : Tables) (ident : string) (i : nat) (u : User.t) (l : datetime) :
  list_find (λ u, User.email u = ident ∨ User.username u = ident) (users t)
  = Some (i, u) →
  User.is_active u = true →
  User.locked_until u = Some l →
  ∀ (now : datetime) (password : string) (ip ua : option string) (b : bool),
    authenticate_user now ident password ip ua (connect t b)
    = (Raise TypeError, connect t b)
    ∧ ∀ detail,
        fst (authenticate_user now ident password ip ua (connect t b))
        ≠ Raise (HTTPException HTTP_403_FORBIDDEN detail).
Proof.
  intros Hfind Hact Hlock now password ip ua b.
  by rewrite (login_lockout_expiry_set t b now ident password ip ua i u
                Hfind l Hact Hlock).
Qed.

(** ** Session rows *)

Lemma tokens_with_session (t : Tables) (i : nat) (s s' : SessionModel.t) :
  sessions t !! i = Some s →
  SessionModel.refresh_token s' = SessionModel.refresh_token s →
  tokens (with_session i s' t) = tokens t.
Proof.
  intros Hi Htok. unfold tokens, with_session. simpl.
  rewrite list_fmap_insert, Htok. apply list_insert_id.
  by rewrite list_lookup_fmap, Hi.
Qed.

(** ** Logout *)

Lemma logout_single (t : Tables) (b : bool) (now : datetime) (user : User.t)
  (token : string) (ip ua : option string) :
  token ≠ "" →
  logout_user now user (Some token) ip ua (connect t b)
  = after_audit b
      match list_find
              (λ s, SessionModel.user_id s = User.id user
                    ∧ Some (SessionModel.refresh_token s) = Some token)
              (sessions t) with
      | Some (i, s) => with_session i (SessionModel.set_is_revoked true s) t
      | None => t
      end
      (AuditLog.mk (Some (User.id user)) "logout" ip ua "success"
         VNone now)
      (Ok ()).
Proof.
  intros Hne. unfold logout_user.
  assert (Htruthy : truthy (Some token) = true)
    by by apply bool_decide_eq_true.
  rewrite Htruthy.
  unfold query_first_session, bind, get_working, ret. simpl.
  destruct (list_find _ (sessions t)) as [[i s]|] eqn:Hfind; simpl.
  - unfold flush_session, bind, get_working, put_working. simpl.
    commit_step. audit_step.
  - unfold connect at 1. commit_step. audit_step.
Qed.

Lemma revoke_all_length (uid : UUID) (l : list SessionModel.t) :
  length (revoke_all uid l) = length l.
Proof. unfold revoke_all. by rewrite length_fmap. Qed.

Lemma logout_all (t : Tables) (b : bool) (now : datetime) (user : User.t)
  (token : option string) (ip ua : option string) :
  truthy token = false →
  logout_user now user token ip ua (connect t b)
  = after_audit b
      (mkTables (users t) (revoke_all (User.id user) (sessions t))
         (audit_log t))
      (AuditLog.mk (Some (User.id user)) "logout" ip ua "success"
         VNone now)
      (Ok ()).
Proof.
  intros Hfalsy. unfold logout_user. rewrite Hfalsy.
  unfold bind, get_working, put_working, ret. simpl.
  rewrite commit_no_audit by done.
  rewrite unique_inserts_same_length
    by (unfold tokens, revoke_all; simpl; by rewrite !length_fmap).
  simpl. audit_step.
Qed.

(** C9: with a supplied token, logout revokes the session found for
    (account, token) and leaves every other session as it was; with no
    token it revokes every session of the account and leaves the
    sessions of other accounts as they were.  Accounts are not changed.
    A supplied token is not empty: the route hands over [None] or the
    [refresh_token] of a [RefreshTokenRequest], which has at least 10
    characters.  (The empty string, which only a direct call could pass,
    is falsy and takes the branch of no token.) *)
Theorem logout_revocation_scope
  (t : Tables) (now : datetime) (user : User.t) (ip ua : option string) :
  (∀ token,
     token ≠ "" →
     let res := logout_user now user (Some token) ip ua (connect t true) in
     fst res = Ok ()
     ∧ users (committed res) = users t
     ∧ length (sessions (committed res)) = length (sessions t)
     ∧ (∀ k s,
          list_find (λ s, SessionModel.user_id s = User.id user
                          ∧ Some (SessionModel.refresh_token s) = Some token)
            (sessions t) = Some (k, s) →
          sessions (committed res) !! k
          = Some (SessionModel.set_is_revoked true s))
     ∧ (∀ k s,
          sessions t !! k = Some s →
          SessionModel.user_id s ≠ User.id user
          ∨ SessionModel.refresh_token s ≠ token →
          sessions (committed res) !! k = Some s))
  ∧ (∀ token,
       token = None ∨ token = Some "" →
       let res := logout_user now user token ip ua (connect t true) in
       fst res = Ok ()
       ∧ users (committed res) = users t
       ∧ length (sessions (committed res)) = length (sessions t)
       ∧ (∀ k s,
            sessions t !! k = Some s →
            SessionModel.user_id s = User.id user →
            sessions (committed res) !! k
            = Some (SessionModel.set_is_revoked true s))
       ∧ (∀ k s,
            sessions t !! k = Some s →
            SessionModel.user_id s ≠ User.id user →
            sessions (committed res) !! k = Some s)).
Proof.
  split.
  - intros token Hne res. subst res. rewrite logout_single by done.
    destruct (list_find _ (sessions t)) as [[i s]|] eqn:Hfind; simpl.
    + pose proof Hfind as (Hi & [Huid Htok] & _)%list_find_Some.
      split_and!; try done.
      * apply length_insert.
      * intros k s' [= <- <-]. apply list_lookup_insert_eq.
        by eapply lookup_lt_Some.
      * intros k s' Hk Hother.
        destruct (decide (i = k)) as [->|Hik].
        -- rewrite Hi in Hk. injection Hk as <-. injection Htok as Htok.
           by destruct Hother as [Ho|Ho]; destruct Ho.
        -- by rewrite list_lookup_insert_ne.
    + split_and!; done.
  - intros token Hfalsy res. subst res.
    rewrite logout_all by (by destruct Hfalsy as [-> | ->]).
    simpl. split_and!; try done.
    + apply revoke_all_length.
    + intros k s Hk Huid. unfold revoke_all.
      rewrite list_lookup_fmap, Hk. simpl.
      rewrite (bool_decide_eq_true_2 _ Huid). simpl.
      case_bool_decide as Hrev; [done|].
      f_equal. destruct s; simpl in *. f_equal.
      by destruct is_revoked.
    + intros k s Hk Huid. unfold revoke_all.
      rewrite list_lookup_fmap, Hk. simpl.
      by rewrite (bool_decide_eq_false_2 _ Huid).
Qed.

(** ** Profile update *)

(** What the update loop may do to an account: the profile fields keep
    their value or take a supplied value that is not [None]; every other
    field keeps its value. *)
Lemma apply_updates_frame (update_data : list (string * PyVal)) :
  ∀ user : User.t,
  ∃ user',
    apply_updates update_data user = Ok user'
    ∧ User.id user' = User.id user
    ∧ User.email user' = User.email user
    ∧ User.username user' = User.username user
    ∧ User.password_hash user' = User.password_hash user
    ∧ User.role user' = User.role user
    ∧ User.is_active user' = User.is_active user
    ∧ User.mfa_enabled user' = User.mfa_enabled user
    ∧ User.failed_login_attempts user' = User.failed_login_attempts user
    ∧ User.locked_until user' = User.locked_until user
    ∧ User.last_login_at user' = User.last_login_at user
    ∧ (User.first_name user' = User.first_name user
       ∨ ∃ v, ("first_name", v) ∈ update_data ∧ v ≠ VNone
              ∧ User.first_name user' = v)
    ∧ (User.last_name user' = User.last_name user
       ∨ ∃ v, ("last_name", v) ∈ update_data ∧ v ≠ VNone
              ∧ User.last_name user' = v)
    ∧ (User.preferences user' = User.preferences user
       ∨ ∃ v, ("preferences", v) ∈ update_data ∧ v ≠ VNone
              ∧ User.preferences user' = v).
Proof.
  induction update_data as [|[field value] rest IH]; intros user.
  - exists user. simpl. split_and!; auto.
  - cbn [apply_updates].
    assert (Hlater : ∀ f v, (f, v) ∈ rest → (f, v) ∈ (field, value) :: rest)
      by (intros; by apply list_elem_of_further).
    destruct (bool_decide (field ∈ ["first_name"; "last_name"; "preferences"])
              && negb match value with VNone => true | _ => false end)
      eqn:Hguard.
    + apply andb_true_iff in Hguard as [Hfield Hvalue].
      apply bool_decide_eq_true in Hfield.
      assert (Hnone : value ≠ VNone) by (by destruct value).
      assert (Hhere : (field, value) ∈ (field, value) :: rest)
        by apply list_elem_of_here.
      apply elem_of_cons in Hfield as [->|Hfield];
        [|apply elem_of_cons in Hfield as [->|Hfield];
          [|apply list_elem_of_singleton in Hfield as ->]];
        simpl;
        match goal with
        | |- context [apply_updates rest ?x] =>
          destruct (IH x)
            as (user' & -> & ? & ? & ? & ? & ? & ? & ? & ? & ? & ?
                & Hf & Hl & Hp)
        end;
        exists user'; simpl in *;
        (split_and!; try done;
         match goal with
         | H : _ ∨ _ |- _ ∨ _ =>
           destruct H as [->|(v & Hin & Hv & ->)]; simpl; eauto 8
         end).
    + destruct (IH user)
        as (user' & -> & ? & ? & ? & ? & ? & ? & ? & ? & ? & ?
            & Hf & Hl & Hp).
      exists user'. split_and!; try done.
      * destruct Hf as [->|(v & Hin & Hv & ->)]; eauto 8.
      * destruct Hl as [->|(v & Hin & Hv & ->)]; eauto 8.
      * destruct Hp as [->|(v & Hin & Hv & ->)]; eauto 8.
Qed.

Lemma update_user_profile_run (t : Tables) (b : bool) (now : datetime)
  (i : nat) (user user' : User.t) (update_data : list (string * PyVal))
  (ip ua : option string) :
  apply_updates update_data user = Ok user' →
  update_user_profile now i user update_data ip ua (connect t b)
  = if bool_decide (i < length (users t))%nat
    then after_audit b (with_user i user' t)
           (AuditLog.mk (Some (User.id user')) "profile_updated" ip ua
              "success"
              VNone now)
           (Ok user')
    else (Raise SQLAlchemyError, connect t b).
Proof.
  intros Happly. unfold update_user_profile. rewrite Happly.
  unfold flush_user, bind, get_working, put_working. simpl.
  commit_step. unfold refresh_user, bind, get_working, ret. simpl.
  case_bool_decide as Hi.
  - rewrite list_lookup_insert_eq by done. audit_step.
  - rewrite list_insert_ge by lia.
    rewrite lookup_ge_None_2 by lia.
    unfold raise, with_user. rewrite list_insert_ge by lia. by destruct t.
Qed.

(** C10: whatever keys and values [update_data] holds, the profile
    update of an account leaves its email, username, role, activation
    flag, password hash, failed-attempt counter and lockout expiry (and
    its id, MFA flag and last login) as they were; [first_name],
    [last_name] and [preferences] either keep their value or take a
    supplied value that is not [None].  No other account and no session
    is changed. *)
Theorem profile_update_preserves_security_fields
  (t : Tables) (now : datetime) (i : nat) (user : User.t)
  (update_data : list (string * PyVal)) (ip ua : option string) :
  users t !! i = Some user →
  let res := update_user_profile now i user update_data ip ua
               (connect t true) in
  ∃ user',
    fst res = Ok user'
    ∧ users (committed res) = <[i := user']> (users t)
    ∧ sessions (committed res) = sessions t
    ∧ User.email user' = User.email user
    ∧ User.username user' = User.username user
    ∧ User.role user' = User.role user
    ∧ User.is_active user' = User.is_active user
    ∧ User.password_hash user' = User.password_hash user
    ∧ User.failed_login_attempts user' = User.failed_login_attempts user
    ∧ User.locked_until user' = User.locked_until user
    ∧ User.id user' = User.id user
    ∧ User.mfa_enabled user' = User.mfa_enabled user
    ∧ User.last_login_at user' = User.last_login_at user
    ∧ (User.first_name user' = User.first_name user
       ∨ ∃ v, ("first_name", v) ∈ update_data ∧ v ≠ VNone
              ∧ User.first_name user' = v)
    ∧ (User.last_name user' = User.last_name user
       ∨ ∃ v, ("last_name", v) ∈ update_data ∧ v ≠ VNone
              ∧ User.last_name user' = v)
    ∧ (User.preferences user' = User.preferences user
       ∨ ∃ v, ("preferences", v) ∈ update_data ∧ v ≠ VNone
              ∧ User.preferences user' = v).
Proof.
  intros Hi res. subst res.
  destruct (apply_updates_frame update_data user)
    as (user' & Happly & ? & ? & ? & ? & ? & ? & ? & ? & ? & ? & ? & ? & ?).
  rewrite (update_user_profile_run t true now i user user') by done.
  rewrite bool_decide_eq_true_2 by by eapply lookup_lt_Some.
  exists user'. simpl. split_and!; done.
Qed.

Lemma change_password_wrong (t : Tables) (b : bool) (now : datetime)
  (i : nat) (user : User.t) (current_password new_password : string)
  (ip ua : option string) :
  verify_password current_password (User.password_hash user) = false →
  change_password now i user current_password new_password ip ua
    (connect t b)
  = after_audit b t
      (AuditLog.mk (Some (User.id user)) "password_change" ip ua "failure"
         VNone now)
      (Raise (HTTPException HTTP_400_BAD_REQUEST
                "Current password is incorrect")).
Proof.
  intros Hpw. unfold change_password. rewrite Hpw. simpl.
  unfold bind. audit_step.
Qed.

Lemma change_password_right (t : Tables) (b : bool) (now : datetime)
  (i : nat) (user : User.t) (current_password new_password : string)
  (ip ua : option string) :
  verify_password current_password (User.password_hash user) = true →
  change_password now i user current_password new_password ip ua
    (connect t b)
  = after_audit b
      (with_user i
         (User.set_password_hash (hash_password new_password) user) t)
      (AuditLog.mk (Some (User.id user)) "password_change" ip ua "success"
         VNone now)
      (Ok ()).
Proof.
  intros Hpw. unfold change_password. rewrite Hpw. simpl.
  unfold flush_user, bind, get_working, put_working. simpl.
  commit_step. audit_step.
Qed.

(** ** State changes and their audit records *)

Lemma audited_call {A} (op : M A) (t t' : Tables) (e : AuditLog.t)
  (r : Result A) :
  audit_log t' = audit_log t →
  (∀ b, op (connect t b) = after_audit b t' e r) →
  committed_before_audit op t.
Proof. intros Hlog Hop. unfold committed_before_audit. by rewrite !Hop. Qed.

Lemma unaudited_call {A} (op : M A) (t t' : Tables) (x : Exception) :
  audit_log t' = audit_log t →
  (∀ b, op (connect t b) = (Raise x, connect t' b)) →
  committed_before_audit op t.
Proof. intros Hlog Hop. unfold committed_before_audit. by rewrite !Hop. Qed.

Lemma login_committed_before_audit (t : Tables) (now : datetime)
  (ident password : string) (ip ua : option string) :
  committed_before_audit (authenticate_user now ident password ip ua) t.
Proof.
  destruct (list_find (λ u, User.email u = ident ∨ User.username u = ident)
              (users t)) as [[i u]|] eqn:Hfind.
  2:{ eapply audited_call; [|intros b; by apply login_user_not_found]. done. }
  destruct (User.is_active u) eqn:Hact.
  2:{ eapply audited_call; [|intros b; by eapply login_deactivated]. done. }
  destruct (User.locked_until u) as [l|] eqn:Hlock.
  { eapply (unaudited_call _ t t); [done|].
    intros b. by eapply login_lockout_expiry_set. }
  apply (is_locked_no_lockout_expiry now) in Hlock.
  destruct (verify_password password (User.password_hash u)) eqn:Hpw.
  - pose proof (λ b, login_success t b now ident password ip ua i u
                       Hfind Hact Hlock Hpw) as Hrun.
    cbv zeta in Hrun. case_bool_decide.
    + eapply audited_call; [|exact Hrun]. done.
    + eapply unaudited_call; [|exact Hrun]. done.
  - destruct (decide (MAX_FAILED_LOGIN_ATTEMPTS
                      ≤ User.failed_login_attempts u + 1)) as [Hmax|Hmax].
    + eapply audited_call;
        [|intros b; by eapply login_wrong_password_locks]. done.
    + eapply audited_call;
        [|intros b; eapply login_wrong_password_counts; try done; lia]. done.
Qed.

Lemma logout_committed_before_audit (t : Tables) (now : datetime)
  (user : User.t) (token : option string) (ip ua : option string) :
  committed_before_audit (logout_user now user token ip ua) t.
Proof.
  destruct (truthy token) eqn:Htruthy.
  - destruct token as [token|]; [|done].
    apply bool_decide_eq_true in Htruthy.
    eapply audited_call; [|intros b; by apply logout_single].
    by destruct (list_find _ _) as [[??]|].
  - eapply audited_call; [|intros b; by apply logout_all]. done.
Qed.

Lemma profile_committed_before_audit (t : Tables) (now : datetime)
  (i : nat) (user : User.t) (update_data : list (string * PyVal))
  (ip ua : option string) :
  committed_before_audit (update_user_profile now i user update_data ip ua) t.
Proof.
  destruct (apply_updates_frame update_data user) as (user' & Happly & _).
  pose proof (λ b, update_user_profile_run t b now i user user' update_data
                     ip ua Happly) as Hrun.
  case_bool_decide.
  - eapply audited_call; [|exact Hrun]. done.
  - eapply unaudited_call; [|exact Hrun]. done.
Qed.

Lemma password_committed_before_audit (t : Tables) (now : datetime)
  (i : nat) (user : User.t) (current_password new_password : string)
  (ip ua : option string) :
  committed_before_audit
    (change_password now i user current_password new_password ip ua) t.
Proof.
  destruct (verify_password current_password (User.password_hash user))
    eqn:Hpw.
  - eapply audited_call; [|intros b; by apply change_password_right]. done.
  - eapply audited_call; [|intros b; by apply change_password_wrong]. done.
Qed.

(** C3, as the code has it: login, logout, profile update and password
    change commit their state change first and write the audit record
    afterwards, in a transaction of its own.  When the store refuses the
    audit row, every call that writes an audit row on a healthy store
    raises the storage error and adds no audit row, and the accounts and
    sessions it leaves committed are those of the run on the healthy
    store: the state change stays, without its audit record.  A logout
    and a password change always write their audit row, so on such a
    store they always raise. *)
Theorem state_change_is_committed_before_its_audit_record
  (t : Tables) (now : datetime) (ident password new_password : string)
  (logout_token : option string) (i : nat) (user : User.t)
  (update_data : list (string * PyVal)) (ip ua : option string) :
  committed_before_audit (authenticate_user now ident password ip ua) t
  ∧ committed_before_audit (logout_user now user logout_token ip ua) t
  ∧ committed_before_audit
      (update_user_profile now i user update_data ip ua) t
  ∧ committed_before_audit
      (change_password now i user password new_password ip ua) t
  ∧ fst (logout_user now user logout_token ip ua (connect t false))
    = Raise SQLAlchemyError
  ∧ fst (change_password now i user password new_password ip ua
           (connect t false))
    = Raise SQLAlchemyError.
Proof.
  split_and!.
  - apply login_committed_before_audit.
  - apply logout_committed_before_audit.
  - apply profile_committed_before_audit.
  - apply password_committed_before_audit.
  - destruct (truthy logout_token) eqn:Htruthy.
    + destruct logout_token as [token|]; [|done].
      apply bool_decide_eq_true in Htruthy. by rewrite logout_single.
    + by rewrite logout_all.
  - destruct (verify_password password (User.password_hash user)) eqn:Hpw.
    + by rewrite change_password_right.
    + by rewrite change_password_wrong.
Qed.

End Properties.

(** * The services on concrete stores *)

Section Concrete.
#[local] Existing Instance default_settings.
#[local] Existing Instance demo_primitives.

(** C1, the failing input: the laptop session of the seed is not
    revoked and expires at clock 5000, and its owner is active; a refresh
    with its token at clock 1000 raises [TypeError] and leaves the store
    as it was. *)
Lemma refresh_of_unrevoked_session_raises_witness :
  SessionModel.is_revoked (laptop false) = false
  ∧ 1000 < SessionModel.expires_at (laptop false)
  ∧ refresh_access_token 1000 "refresh.3.laptop" None None
      (connect (seed 0 None) true)
    = (Raise TypeError, connect (seed 0 None) true).
Proof.
  split; [reflexivity|]. split; [reflexivity|].
  apply (refresh_of_unrevoked_session_raises 1000 "refresh.3.laptop" None
           None (connect (seed 0 None) true) 0 (laptop false)).
  - reflexivity.
  - reflexivity.
Defined.

(** C2, counterexample: the fifth wrong password (threshold 5) for an
    active, unlocked account fails with 403 and locks the account, and the
    only audit row of the attempt is [account_locked]; there is no
    [login_failure] row. *)
Lemma lockout_attempt_logs_one_event :
  let res :=
    authenticate_user 1000 "chris@portal.dev" "wrong-password" None None
      (connect (seed 4 None) true) in
  verify_password "wrong-password" (User.password_hash (chris 4 None)) = false
  ∧ User.failed_login_attempts (chris 4 None) + 1 = MAX_FAILED_LOGIN_ATTEMPTS
  ∧ fst res = Raise (HTTPException HTTP_403_FORBIDDEN
                       "Account locked due to too many failed login attempts")
  ∧ AuditLog.action <$> audit_log (committed res) = ["account_locked"]
  ∧ ¬ ∃ e, e ∈ audit_log (committed res)
           ∧ AuditLog.action e = "login_failure".
Proof.
  vm_compute. split_and!; try reflexivity.
  intros (e & Hin & Hact).
  apply elem_of_cons in Hin as [->|Hin]; [discriminate|].
  by apply elem_of_nil in Hin.
Qed.

(** C2, witness. *)
Lemma lockout_sets_expiry_and_logs_account_locked_witness :
  let res :=
    authenticate_user 1000 "chris@portal.dev" "wrong-password" None None
      (connect (seed 4 None) true) in
  users (committed res) = [admin; chris 5 (Some 900001000)].
Proof.
  pose proof (lockout_sets_expiry_and_logs_account_locked (seed 4 None) 1000
                "chris@portal.dev" "wrong-password" None None 1
                (chris 4 None)) as H.
  destruct H as (_ & Husers & _); [reflexivity..|].
  exact Husers.
Defined.

(** C3, counterexample: on a store that refuses the audit row, a wrong
    password raises a storage error and leaves no audit record, yet the
    incremented counter is committed. *)
Lemma audit_failure_keeps_state_change :
  let res :=
    authenticate_user 1000 "chris_p" "wrong-password" None None
      (connect (seed 0 None) false) in
  fst res = Raise SQLAlchemyError
  ∧ audit_log (committed res) = []
  ∧ users (committed res) = [admin; chris 1 None]
  ∧ users (committed res) ≠ users (seed 0 None).
Proof. vm_compute. split_and!; try reflexivity. discriminate. Qed.

(** C4, counterexample: an unknown token and a revoked token both fail
    with 401, with different detail messages. *)
Lemma refresh_failures_differ_in_detail :
  let t := mkTables [admin; chris 0 None] [laptop true] [] in
  let unknown :=
    refresh_access_token 1000 "refresh.3.unknown" None None (connect t true) in
  let revoked :=
    refresh_access_token 1000 "refresh.3.laptop" None None (connect t true) in
  fst unknown
  = Raise (HTTPException HTTP_401_UNAUTHORIZED "Invalid refresh token")
  ∧ fst revoked
    = Raise (HTTPException HTTP_401_UNAUTHORIZED
               "Refresh token has expired or been revoked")
  ∧ fst unknown ≠ fst revoked.
Proof. vm_compute. split_and!; try reflexivity. discriminate. Qed.

(** C4, witness: an unknown token, and the revoked laptop session. *)
Lemma refresh_failures_are_unauthorized_witness :
  let t := mkTables [admin; chris 0 None] [laptop true] [] in
  refresh_access_token 1000 "refresh.3.unknown" None None (connect t true)
  = (Raise (HTTPException HTTP_401_UNAUTHORIZED "Invalid refresh token"),
     connect t true)
  ∧ refresh_access_token 1000 "refresh.3.laptop" None None (connect t true)
    = (Raise (HTTPException HTTP_401_UNAUTHORIZED
                "Refresh token has expired or been revoked"),
       connect t true).
Proof.
  intros t. split.
  - apply (refresh_failures_are_unauthorized 1000 "refresh.3.unknown"
             None None (connect t true)).
    reflexivity.
  - apply (proj2 (refresh_failures_are_unauthorized 1000 "refresh.3.laptop"
                    None None (connect t true)) 0%nat (laptop true)).
    + reflexivity.
    + reflexivity.
Defined.

(** C5, the failing input: the account's lockout ended at clock 9000,
    with the counter at 5; a login with the correct password at clock
    10000 raises [TypeError] and the row keeps its counter and its
    lockout expiry. *)
Lemma failed_attempt_counter_lifecycle_witness :
  let res :=
    authenticate_user 10000 "chris@portal.dev" "Chris@123!" None None
      (connect (seed 5 (Some 9000)) true) in
  verify_password "Chris@123!" (User.password_hash (chris 5 (Some 9000)))
  = true
  ∧ res = (Raise TypeError, connect (seed 5 (Some 9000)) true)
  ∧ users (committed res) !! 1%nat = Some (chris 5 (Some 9000)).
Proof.
  split; [reflexivity|].
  apply (proj2 (failed_attempt_counter_lifecycle (seed 5 (Some 9000)) 10000
                  "chris@portal.dev" "Chris@123!" None None 1
                  (chris 5 (Some 9000)) eq_refl eq_refl) 9000).
  reflexivity.
Defined.

(** C6, the failing input: the account is locked until clock 9000; a
    login with the correct password at clock 1000 raises [TypeError],
    not a 403. *)
Lemma locked_account_rejects_every_login_witness :
  authenticate_user 1000 "chris@portal.dev" "Chris@123!" None None
    (connect (seed 5 (Some 9000)) true)
  = (Raise TypeError, connect (seed 5 (Some 9000)) true)
  ∧ ∀ detail,
      fst (authenticate_user 1000 "chris@portal.dev" "Chris@123!" None None
             (connect (seed 5 (Some 9000)) true))
      ≠ Raise (HTTPException HTTP_403_FORBIDDEN detail).
Proof.
  apply (locked_account_rejects_every_login (seed 5 (Some 9000))
           "chris@portal.dev" 1 (chris 5 (Some 9000)) 9000);
    reflexivity.
Defined.

(** C7, the failing input: the laptop session of the seed, not revoked
    and expiring at clock 5000, read at clock 1000. *)
Lemma session_validity_check_raises_unless_revoked_witness :
  SessionModel.is_revoked (laptop false) = false
  ∧ 1000 < SessionModel.expires_at (laptop false)
  ∧ SessionModel.is_valid 1000 (laptop false) = Raise TypeError.
Proof.
  split; [reflexivity|]. split; [reflexivity|].
  apply (proj1 (session_validity_check_raises_unless_revoked 1000
                  (laptop false))).
Defined.

(** C8, witness: the refresh token minted for account 3 is presented to
    the access guard. *)
Lemma access_guard_rejects_non_access_kind_witness :
  get_current_user 2000
    (create_refresh_token 1000 {["sub" := VStr "3"]} None)
    (connect (seed 0 None) true)
  = (Raise (HTTPException HTTP_401_UNAUTHORIZED "Invalid token type"),
     connect (seed 0 None) true).
Proof.
  eapply (access_guard_rejects_non_access_kind 2000
            (create_refresh_token 1000 {["sub" := VStr "3"]} None)).
  - vm_compute. reflexivity.
  - vm_compute. discriminate.
Defined.

(** C9, witness: logout with the laptop's token revokes the laptop
    session and leaves the phone session as it was. *)
Lemma logout_revocation_scope_witness :
  let res :=
    logout_user 1000 (chris 0 None) (Some "refresh.3.laptop") None None
      (connect (seed 0 None) true) in
  sessions (committed res) !! 0%nat = Some (laptop true)
  ∧ sessions (committed res) !! 2%nat = Some (phone false).
Proof.
  pose proof (proj1 (logout_revocation_scope (seed 0 None) 1000
                       (chris 0 None) None None) "refresh.3.laptop") as H.
  destruct H as (_ & _ & _ & Hfound & Hother); [discriminate|].
  split.
  - apply (Hfound 0%nat (laptop false)). reflexivity.
  - apply (Hother 2%nat (phone false)); [reflexivity|].
    right. discriminate.
Defined.

(** C10, witness: an update that also names [role], [is_active] and
    [email], and gives [None] for [last_name]. *)
Lemma profile_update_preserves_security_fields_witness :
  let res :=
    update_user_profile 1000 1 (chris 0 None)
      [("first_name", VStr "Christopher"); ("role", VStr "admin");
       ("is_active", VBool false); ("last_name", VNone);
       ("email", VStr "root@portal.dev")]
      None None (connect (seed 0 None) true) in
  ∃ user',
    fst res = Ok user'
    ∧ User.role user' = "user"
    ∧ User.email user' = "chris@portal.dev"
    ∧ User.is_active user' = true.
Proof.
  pose proof (profile_update_preserves_security_fields (seed 0 None) 1000 1
                (chris 0 None)
                [("first_name", VStr "Christopher"); ("role", VStr "admin");
                 ("is_active", VBool false); ("last_name", VNone);
                 ("email", VStr "root@portal.dev")] None None eq_refl) as H.
  destruct H as (user' & Hres & _ & _ & Hemail & _ & Hrole & Hact & _).
  exists user'. split_and!; assumption.
Defined.

End Concrete.

(** * Further properties of the services *)

Section Extensions.
Context `{settings : Settings} `{prims : Primitives}.

(** ** Role hierarchy *)

(** [require_role] lets the caller through exactly when both roles are
    known and the caller's is at least the required one in the order
    user < manager < admin; an unknown required role lets nobody
    through, an unknown caller role gets through nothing.  A refusal is
    a 403, and the store is never touched. *)
Theorem require_role_hierarchy
  (required_role : string) (current_user : User.t) (db : Db) :
  (require_role required_role current_user db = (Ok current_user, db)
   ↔ (required_role = "user"
      ∧ (User.role current_user = "user"
         ∨ User.role current_user = "manager"
         ∨ User.role current_user = "admin"))
     ∨ (required_role = "manager"
        ∧ (User.role current_user = "manager"
           ∨ User.role current_user = "admin"))
     ∨ (required_role = "admin" ∧ User.role current_user = "admin"))
  ∧ (require_role required_role current_user db = (Ok current_user, db)
     ∨ require_role required_role current_user db
       = (Raise (HTTPException HTTP_403_FORBIDDEN
                   ("Insufficient permissions. " +:+ capitalize required_role
                    +:+ " role required.")), db)).
Proof.
  unfold require_role, role_level, raise, ret.
  split.
  - repeat case_bool_decide; simpl;
      (split; intros Hc;
       [first [discriminate Hc | tauto]
       |first [reflexivity | exfalso; intuition congruence]]).
  - repeat case_bool_decide; simpl; auto.
Qed.

(** ** Device detection *)

Lemma lower_ascii_idemp (a : Ascii.ascii) :
  lower_ascii (lower_ascii a) = lower_ascii a.
Proof.
  destruct a as [[] [] [] [] [] [] [] []]; reflexivity.
Qed.

Lemma lower_idemp (s : string) : lower (lower s) = lower s.
Proof.
  induction s as [|a s IH]; simpl; [done|].
  by rewrite lower_ascii_idemp, IH.
Qed.

Lemma lower_empty (s : string) : lower s = "" ↔ s = "".
Proof. destruct s; simpl; split; intros; done. Qed.

(** [_detect_device_type] answers [unknown] exactly for a missing or
    empty user agent and otherwise one of [mobile], [tablet], [desktop];
    a mobile marker wins over a tablet marker; the answer does not
    depend on letter case. *)
Theorem detect_device_type_classes (user_agent : option string) :
  _detect_device_type user_agent
  ∈ ["unknown"; "mobile"; "tablet"; "desktop"]
  ∧ (_detect_device_type user_agent = "unknown"
     ↔ user_agent = None ∨ user_agent = Some "")
  ∧ (∀ ua, user_agent = Some ua → ua ≠ "" →
       str_in "mobile" (lower ua) = true
       ∨ str_in "android" (lower ua) = true
       ∨ str_in "iphone" (lower ua) = true →
       _detect_device_type user_agent = "mobile")
  ∧ (∀ ua, user_agent = Some ua →
       _detect_device_type (Some (lower ua)) = _detect_device_type (Some ua)).
Proof.
  split_and!.
  - destruct user_agent as [ua|]; simpl; [|set_solver].
    repeat case_match; set_solver.
  - destruct user_agent as [ua|]; simpl; [|naive_solver].
    case_bool_decide as Hne; simpl.
    + split; [|naive_solver]. repeat case_match; discriminate.
    + subst ua. split; [by right|done].
  - intros ua -> Hne Hmarker. simpl.
    rewrite bool_decide_eq_true_2 by done. simpl.
    destruct Hmarker as [-> | [-> | ->]]; simpl;
      rewrite ?orb_true_r; done.
  - intros ua _. simpl. rewrite lower_idemp.
    destruct (decide (ua = "")) as [->|Hne]; [done|].
    rewrite !bool_decide_eq_true_2; [done|done|].
    by rewrite lower_empty.
Qed.

(** ** Token claims *)

(** The minting functions decide the kind and the expiry themselves:
    whatever [data] holds under [type] or [exp] is overwritten, every
    other key of [data] is carried over, and a zero [expires_delta] is
    treated as none given.  Access and refresh claims never coincide. *)
Theorem token_claims_fix_kind_and_expiry
  (now : datetime) (data : gmap string PyVal) (expires_delta : option Z) :
  access_claims now data expires_delta !! "type" = Some (VStr "access")
  ∧ refresh_claims now data expires_delta !! "type" = Some (VStr "refresh")
  ∧ access_claims now data expires_delta !! "exp"
    = Some (VDatetime
              (now + match expires_delta with
                     | Some d =>
                       if bool_decide (d = 0)
                       then timedelta_minutes ACCESS_TOKEN_EXPIRE_MINUTES
                       else d
                     | None => timedelta_minutes ACCESS_TOKEN_EXPIRE_MINUTES
                     end))
  ∧ refresh_claims now data expires_delta !! "exp"
    = Some (VDatetime
              (now + match expires_delta with
                     | Some d =>
                       if bool_decide (d = 0)
                       then timedelta_days REFRESH_TOKEN_EXPIRE_DAYS
                       else d
                     | None => timedelta_days REFRESH_TOKEN_EXPIRE_DAYS
                     end))
  ∧ (∀ k, k ≠ "type" → k ≠ "exp" →
       access_claims now data expires_delta !! k = data !! k
       ∧ refresh_claims now data expires_delta !! k = data !! k)
  ∧ (∀ now' data' expires_delta',
       access_claims now data expires_delta
       ≠ refresh_claims now' data' expires_delta').
Proof.
  unfold access_claims, refresh_claims. split_and!.
  - apply lookup_insert_eq.
  - apply lookup_insert_eq.
  - rewrite lookup_insert_ne by done. rewrite lookup_insert_eq.
    destruct expires_delta as [d|]; [|done].
    by repeat case_bool_decide.
  - rewrite lookup_insert_ne by done. rewrite lookup_insert_eq.
    destruct expires_delta as [d|]; [|done].
    by repeat case_bool_decide.
  - intros k Htype Hexp. by rewrite !lookup_insert_ne by done.
  - intros now' data' expires_delta' Heq.
    apply (f_equal (λ m, m !! "type")) in Heq.
    rewrite !lookup_insert_eq in Heq. discriminate.
Qed.

Lemma val_is_str_true (v : option PyVal) (s : string) :
  val_is_str v s = true ↔ v = Some (VStr s).
Proof.
  destruct v as [[| | |x| | |]|]; simpl; try (split; intros; done).
  rewrite bool_decide_eq_true. split; [by intros ->|by intros [= ->]].
Qed.

(** ** Access guard *)

Lemma get_current_user_connection
  (now : datetime) (token : string) (db : Db) :
  snd (get_current_user now token db) = db.
Proof.
  unfold get_current_user, query_first_user, bind, get_working, ret, raise.
  repeat (case_match; simpl; try done).
Qed.

(** The guard only reads: whatever the token and the store, granted or
    refused, the connection is handed back as it was (no audit row, no
    commit, no pending change). *)
Theorem access_guard_is_read_only
  (now : datetime) (token : string) (db : Db) :
  snd (get_current_user now token db) = db.
Proof.
  unfold get_current_user, query_first_user, bind, get_working, ret, raise.
  destruct (decode_token now token) as [payload|]; simpl; [|done].
  repeat (case_match; simpl; try done).
Qed.

(** What a granted request can rely on: the returned account is a row
    of the store, active and not locked at the time of the request (the
    lock test answered [False]: the row has no lockout expiry), and it is
    the account named by the subject of a decoded token of kind
    [access]. *)
Theorem access_guard_grants_only_active_unlocked
  (now : datetime) (token : string) (db db' : Db) (i : nat) (u : User.t) :
  get_current_user now token db = (Ok (i, u), db') →
  db' = db
  ∧ users (working db) !! i = Some u
  ∧ User.is_active u = true
  ∧ User.is_locked now u = Ok false
  ∧ User.locked_until u = None
  ∧ ∃ payload sub,
      decode_token now token = Some payload
      ∧ payload !! "type" = Some (VStr "access")
      ∧ payload !! "sub" = Some (VStr sub)
      ∧ uuid_parse sub = Some (User.id u).
Proof.
  intros Hrun.
  pose proof (get_current_user_connection now token db) as Hro.
  rewrite Hrun in Hro. simpl in Hro. split; [done|]. clear Hro.
  unfold get_current_user in Hrun.
  destruct (decode_token now token) as [payload|] eqn:Hdec; [|done].
  destruct (val_is_str (payload !! "type") "access") eqn:Htype;
    simpl in Hrun; [|done].
  apply val_is_str_true in Htype.
  destruct (payload !! "sub") as [v|] eqn:Hsub; simpl in Hrun; [|done].
  destruct (truthy_val v) eqn:Htruthy; simpl in Hrun; [|done].
  destruct v as [| | |sub| | |]; try done.
  destruct (uuid_parse sub) as [user_id|] eqn:Hparse; [|done].
  unfold query_first_user, bind, get_working, ret in Hrun. simpl in Hrun.
  destruct (list_find _ (users (working db))) as [[k user]|] eqn:Hfind;
    [|done].
  destruct (User.is_active user) eqn:Hact; simpl in Hrun; [|done].
  unfold lift in Hrun.
  destruct (User.is_locked now user) as [[|]|e] eqn:Hlock; simpl in Hrun;
    try done.
  injection Hrun as -> -> _.
  apply list_find_Some in Hfind as (Hk & Hid & _).
  pose proof (proj1 (is_locked_answers now u false) Hlock) as [_ Hnone].
  split_and!; try done.
  exists payload, sub. split_and!; try done. by rewrite Hid.
Qed.

(** The account-status gate: for a decoded access token whose subject
    names an account of the store, a deactivated account gets 403 and an
    active account without lockout expiry is let through.  An active
    account with a lockout expiry on its row gets neither: the lock test
    raises [TypeError], before and after that instant alike, and the 403
    of the lock branch is never given. *)
Theorem access_guard_account_gate
  (now : datetime) (token : string) (db : Db)
  (payload : gmap string PyVal) (sub : string) (i : nat) (u : User.t) :
  decode_token now token = Some payload →
  payload !! "type" = Some (VStr "access") →
  payload !! "sub" = Some (VStr sub) →
  sub ≠ "" →
  uuid_parse sub = Some (User.id u) →
  list_find (λ x, User.id x = User.id u) (users (working db)) = Some (i, u) →
  get_current_user now token db
  = if negb (User.is_active u) then
      (Raise (HTTPException HTTP_403_FORBIDDEN
                "Account has been deactivated"), db)
    else
      match User.locked_until u with
      | None => (Ok (i, u), db)
      | Some _ => (Raise TypeError, db)
      end.
Proof.
  intros Hdec Htype Hsub Hne Hparse Hfind.
  unfold get_current_user. rewrite Hdec.
  rewrite (proj2 (val_is_str_true _ _) Htype). simpl.
  rewrite Hsub. simpl. rewrite bool_decide_eq_true_2 by done. simpl.
  rewrite Hparse.
  unfold query_first_user, bind, get_working, ret, lift. simpl.
  rewrite Hfind.
  destruct (User.is_active u); simpl; [|done].
  unfold User.is_locked.
  by destruct (User.locked_until u) as [l|].
Qed.

(** ** User lookup *)

(** [get_user_by_id] never touches the store; a malformed identifier
    gives [None] without a query; a returned account is a row of the
    store carrying the parsed identifier; [None] for a well-formed
    identifier means no row carries it. *)
Theorem get_user_by_id_lookup (user_id : string) (db : Db) :
  snd (get_user_by_id user_id db) = db
  ∧ (uuid_parse user_id = None → fst (get_user_by_id user_id db) = Ok None)
  ∧ (∀ u, fst (get_user_by_id user_id db) = Ok (Some u) →
       uuid_parse user_id = Some (User.id u) ∧ u ∈ users (working db))
  ∧ (∀ user_uuid, uuid_parse user_id = Some user_uuid →
       fst (get_user_by_id user_id db) = Ok None →
       ∀ u, u ∈ users (working db) → User.id u ≠ user_uuid).
Proof.
  unfold get_user_by_id, query_first_user, bind, get_working, ret.
  destruct (uuid_parse user_id) as [user_uuid|] eqn:Hparse; simpl.
  - destruct (list_find _ (users (working db))) as [[k u']|] eqn:Hfind;
      simpl.
    + apply list_find_Some in Hfind as (Hk & Hid & _).
      split_and!; try done.
      * intros u [= <-]. split; [by rewrite Hid|].
        by eapply list_elem_of_lookup_2.
    + apply list_find_None in Hfind.
      split_and!; try done.
      intros ? [= <-] _ u Hin.
      by eapply Forall_forall in Hfind.
  - split_and!; done.
Qed.

(** ** Login, refresh and logout in sequence *)

Lemma list_find_snoc_fresh {A} (P : A → Prop) `{!∀ x, Decision (P x)}
  (l : list A) (x : A) :
  Forall (λ y, ¬ P y) l → P x →
  list_find P (l ++ [x]) = Some (length l, x).
Proof.
  intros Hnone Hx. rewrite list_find_app_r by by apply list_find_None.
  simpl. by rewrite decide_True.
Qed.

Lemma list_find_insert_other {A} (P : A → Prop) `{!∀ x, Decision (P x)}
  (l : list A) (i : nat) (x y : A) :
  l !! i = Some x → ¬ P x → ¬ P y →
  list_find P (<[i := y]> l) = list_find P l.
Proof.
  revert i. induction l as [|z l IH]; intros [|i] Hi Hx Hy; simpl in *;
    try done.
  - injection Hi as ->. by rewrite !decide_False.
  - case_decide; [done|]. by rewrite (IH i).
Qed.

Lemma not_in_tokens (t : Tables) (token : string) :
  token ∉ tokens t →
  Forall (λ s, ¬ SessionModel.refresh_token s = token) (sessions t).
Proof.
  intros Hfresh. apply Forall_forall. intros s Hin Htok. apply Hfresh.
  rewrite <- Htok. unfold tokens. by apply list_elem_of_fmap_2.
Qed.

(** The session a login creates carries the returned refresh token,
    the caller's address and user agent, the detected device type and an
    expiry [REFRESH_TOKEN_EXPIRE_DAYS] after the login.  The returned
    token cannot be used: a refresh with it, at any time and from any
    client, raises [TypeError] at the validity check and leaves the
    store as the login left it. *)
Theorem login_session_cannot_be_refreshed
  (t : Tables) (now : datetime) (ident password : string)
  (ip ua : option string) (i : nat) (u : User.t) :
  list_find (λ u, User.email u = ident ∨ User.username u = ident) (users t)
  = Some (i, u) →
  User.is_active u = true →
  User.is_locked now u = Ok false →
  verify_password password (User.password_hash u) = true →
  create_refresh_token now {["sub" := VStr (uuid_str (User.id u))]} None
  ∉ tokens t →
  let login := authenticate_user now ident password ip ua (connect t true) in
  let token :=
    create_refresh_token now {["sub" := VStr (uuid_str (User.id u))]} None in
  let session :=
    SessionModel.mk (User.id u) token ip ua (_detect_device_type ua)
      (now + timedelta_days REFRESH_TOKEN_EXPIRE_DAYS) false now now in
  (∃ u' access_token, fst login = Ok (u', access_token, token))
  ∧ sessions (committed login) = sessions t ++ [session]
  ∧ (∀ now' ip' ua' b,
       refresh_access_token now' token ip' ua' (connect (committed login) b)
       = (Raise TypeError, connect (committed login) b)).
Proof.
  intros Hfind Hact Hunl Hpw Hfresh login token session.
  pose proof (login_success t true now ident password ip ua i u
                Hfind Hact Hunl Hpw) as Hrun.
  cbv zeta in Hrun. fold token in Hrun. fold session in Hrun.
  rewrite bool_decide_eq_true_2 in Hrun by done.
  subst login. rewrite Hrun.
  set (u' := User.set_last_login_at (Some now)
               (User.set_locked_until None
                  (User.set_failed_login_attempts 0 u))) in *.
  match goal with
  | |- context [after_audit true ?x ?e ?r] =>
    change (committed (after_audit true x e r)) with (audited x e);
    set (t' := audited x e)
  end.
  assert (Hsession :
    list_find (λ s, SessionModel.refresh_token s = token) (sessions t')
    = Some (length (sessions t), session)).
  { simpl. apply list_find_snoc_fresh; [by apply not_in_tokens|done]. }
  split_and!.
  - by do 2 eexists.
  - done.
  - intros now' ip' ua' b. by eapply refresh_unrevoked.
Qed.

(** An unknown identifier and a wrong password for a known account get
    the same answer, 401 "Invalid credentials": the response does not
    tell whether the account exists. *)
Theorem login_failure_does_not_reveal_account
  (t : Tables) (now : datetime) (unknown ident password : string)
  (ip ua : option string) (i : nat) (u : User.t) :
  list_find (λ u, User.email u = unknown ∨ User.username u = unknown)
    (users t) = None →
  list_find (λ u, User.email u = ident ∨ User.username u = ident) (users t)
  = Some (i, u) →
  User.is_active u = true →
  User.is_locked now u = Ok false →
  verify_password password (User.password_hash u) = false →
  User.failed_login_attempts u + 1 < MAX_FAILED_LOGIN_ATTEMPTS →
  fst (authenticate_user now unknown password ip ua (connect t true))
  = Raise (HTTPException HTTP_401_UNAUTHORIZED "Invalid credentials")
  ∧ fst (authenticate_user now ident password ip ua (connect t true))
    = fst (authenticate_user now unknown password ip ua (connect t true))
  ∧ users (committed (authenticate_user now unknown password ip ua
                        (connect t true))) = users t.
Proof.
  intros Hnone Hfind Hact Hunl Hpw Hmax.
  rewrite (login_user_not_found t true now unknown password ip ua Hnone).
  by rewrite (login_wrong_password_counts t true now ident password ip ua
                i u Hfind Hact Hunl Hpw Hmax).
Qed.

(** After a logout from all devices, no refresh token of the account
    works any more: a refresh with the token of any of its sessions
    fails with 401. *)
Theorem logout_all_ends_every_session
  (t : Tables) (now : datetime) (user : User.t)
  (logout_token : option string) (ip ua : option string)
  (token : string) (k : nat) (s : SessionModel.t) :
  logout_token = None ∨ logout_token = Some "" →
  list_find (λ s, SessionModel.refresh_token s = token) (sessions t)
  = Some (k, s) →
  SessionModel.user_id s = User.id user →
  let res := logout_user now user logout_token ip ua (connect t true) in
  ∀ now' ip' ua' b,
    refresh_access_token now' token ip' ua' (connect (committed res) b)
    = (Raise (HTTPException HTTP_401_UNAUTHORIZED
                "Refresh token has expired or been revoked"),
       connect (committed res) b).
Proof.
  intros Hfalsy Hfind Huid res now' ip' ua' b. subst res.
  rewrite logout_all by (by destruct Hfalsy as [-> | ->]).
  eapply (refresh_revoked _ _ _ _ _ k
            (if bool_decide (SessionModel.user_id s = User.id user)
                && bool_decide (SessionModel.is_revoked s = false)
             then SessionModel.set_is_revoked true s else s)).
  - simpl. unfold revoke_all. rewrite list_find_fmap.
    erewrite list_find_ext; [rewrite Hfind; done|].
    intros x. simpl. by repeat case_match.
  - rewrite (bool_decide_eq_true_2 _ Huid). simpl.
    case_bool_decide; [done|]. by destruct (SessionModel.is_revoked s).
Qed.

(** After a logout with a session's token, a refresh with that token
    fails with 401, while the lookup of every other token gives what it
    gave before. *)
Theorem logout_single_ends_that_session_only
  (t : Tables) (now : datetime) (user : User.t) (token : string)
  (ip ua : option string) (k : nat) (s : SessionModel.t) :
  token ≠ "" →
  list_find (λ s, SessionModel.refresh_token s = token) (sessions t)
  = Some (k, s) →
  SessionModel.user_id s = User.id user →
  let res := logout_user now user (Some token) ip ua (connect t true) in
  (∀ now' ip' ua' b,
     refresh_access_token now' token ip' ua' (connect (committed res) b)
     = (Raise (HTTPException HTTP_401_UNAUTHORIZED
                 "Refresh token has expired or been revoked"),
        connect (committed res) b))
  ∧ (∀ other,
       other ≠ token →
       list_find (λ s, SessionModel.refresh_token s = other)
         (sessions (committed res))
       = list_find (λ s, SessionModel.refresh_token s = other) (sessions t)).
Proof.
  intros Hne Hfind Huid res. subst res.
  rewrite logout_single by done.
  pose proof Hfind as (Hk & Htok & Hfirst)%list_find_Some.
  assert (Hboth :
    list_find (λ s, SessionModel.user_id s = User.id user
                    ∧ Some (SessionModel.refresh_token s) = Some token)
      (sessions t) = Some (k, s)).
  { apply list_find_Some. split_and!; [done|done|by rewrite Htok|].
    intros j y Hj Hlt [_ [= Hy]]. by eapply Hfirst. }
  rewrite Hboth. simpl. split.
  - intros now' ip' ua' b. eapply refresh_revoked.
    + simpl. eapply list_find_insert_same; [exact Hfind|exact Htok].
    + done.
  - intros other Hother. simpl.
    eapply list_find_insert_other; [exact Hk|..]; simpl; congruence.
Qed.

(** The lockout never ends: once a wrong password has locked the
    account, every later login attempt for it, at any time before or
    after [locked_until] and with any password, raises [TypeError] at the
    lock test and changes nothing.  The counter and the lockout expiry
    stay as the locking attempt left them, no session is created and no
    audit row is written. *)
Theorem lockout_never_ends
  (t : Tables) (now : datetime) (ident password : string)
  (ip ua : option string) (i : nat) (u : User.t) :
  list_find (λ u, User.email u = ident ∨ User.username u = ident) (users t)
  = Some (i, u) →
  User.is_active u = true →
  User.is_locked now u = Ok false →
  verify_password password (User.password_hash u) = false →
  MAX_FAILED_LOGIN_ATTEMPTS ≤ User.failed_login_attempts u + 1 →
  let locked :=
    committed (authenticate_user now ident password ip ua (connect t true)) in
  let locked_until :=
    now + timedelta_minutes ACCOUNT_LOCKOUT_DURATION_MINUTES in
  (∃ u1, users locked !! i = Some u1
         ∧ User.locked_until u1 = Some locked_until
         ∧ User.failed_login_attempts u1 = User.failed_login_attempts u + 1)
  ∧ (∀ now' password' ip' ua' b,
       authenticate_user now' ident password' ip' ua' (connect locked b)
       = (Raise TypeError, connect locked b)).
Proof.
  intros Hfind Hact Hunl Hpw Hmax locked locked_until.
  assert (Hi : (i < length (users t))%nat).
  { apply list_find_Some in Hfind as (Hi & _). by eapply lookup_lt_Some. }
  set (u1 := User.set_locked_until (Some locked_until)
               (User.set_failed_login_attempts
                  (User.failed_login_attempts u + 1) u)).
  assert (Hlocked : users locked = <[i := u1]> (users t)).
  { unfold locked.
    by rewrite (login_wrong_password_locks t true now ident password ip ua
                  i u Hfind Hact Hunl Hpw Hmax). }
  assert (Hfind1 :
    list_find (λ u, User.email u = ident ∨ User.username u = ident)
      (users locked) = Some (i, u1)).
  { rewrite Hlocked. eapply list_find_insert_same; [exact Hfind|].
    apply list_find_Some in Hfind as (_ & HP & _). exact HP. }
  split.
  - exists u1. rewrite Hlocked.
    split; [by apply list_lookup_insert_eq|done].
  - intros now' password' ip' ua' b.
    by apply (login_lockout_expiry_set locked b now' ident password' ip' ua'
                i u1 Hfind1 locked_until).
Qed.

(** ** Refresh: what it never does *)

(** No refresh succeeds and none writes: whatever the token, the clock,
    the client and the store, [refresh_access_token] raises and hands
    the connection back as it was.  It raises 401 for a token that no
    session carries and for the token of a revoked session, and
    [TypeError] exactly when the session found is not revoked. *)
Theorem refresh_never_succeeds
  (now : datetime) (token : string) (ip ua : option string) (db : Db) :
  snd (refresh_access_token now token ip ua db) = db
  ∧ (∃ e, fst (refresh_access_token now token ip ua db) = Raise e
          ∧ (e = HTTPException HTTP_401_UNAUTHORIZED "Invalid refresh token"
             ∨ e = HTTPException HTTP_401_UNAUTHORIZED
                     "Refresh token has expired or been revoked"
             ∨ e = TypeError))
  ∧ (fst (refresh_access_token now token ip ua db) = Raise TypeError
     ↔ ∃ i s,
         list_find (λ s, SessionModel.refresh_token s = token)
           (sessions (working db)) = Some (i, s)
         ∧ SessionModel.is_revoked s = false).
Proof.
  rewrite refresh_access_token_run.
  destruct (list_find _ (sessions (working db))) as [[i s]|] eqn:Hfind.
  - destruct (SessionModel.is_revoked s) eqn:Hrev; simpl.
    + split_and!; [done|eauto|].
      split; [done|]. intros (? & ? & [= _ <-] & ?). congruence.
    + split_and!; [done|eauto|].
      split; [|done]. intros _. by exists i, s.
  - simpl. split_and!; [done|eauto|].
    split; [done|]. by intros (? & ? & ? & _).
Qed.

(** ** Password change *)

(** A password change with a wrong current password fails with 400 and
    changes no account (the failed-login counter is not raised) and no
    session.  With the right one, the account's hash becomes the hash of
    the new password and nothing else changes: no session is revoked or
    otherwise touched.  Either way one [password_change] audit row is
    added. *)
Theorem change_password_effects
  (t : Tables) (now : datetime) (i : nat) (user : User.t)
  (current_password new_password : string) (ip ua : option string) :
  users t !! i = Some user →
  let res := change_password now i user current_password new_password ip ua
               (connect t true) in
  sessions (committed res) = sessions t
  ∧ (∃ e, audit_log (committed res) = audit_log t ++ [e]
          ∧ AuditLog.action e = "password_change"
          ∧ AuditLog.user_id e = Some (User.id user)
          ∧ AuditLog.outcome e
            = if verify_password current_password (User.password_hash user)
              then "success" else "failure")
  ∧ (verify_password current_password (User.password_hash user) = false →
     fst res = Raise (HTTPException HTTP_400_BAD_REQUEST
                        "Current password is incorrect")
     ∧ users (committed res) = users t)
  ∧ (verify_password current_password (User.password_hash user) = true →
     fst res = Ok ()
     ∧ users (committed res)
       = <[i := User.set_password_hash (hash_password new_password) user]>
           (users t)).
Proof.
  intros Hi res. subst res.
  destruct (verify_password current_password (User.password_hash user))
    eqn:Hpw.
  - rewrite change_password_right by done. simpl.
    split_and!; try done. by eexists.
  - rewrite change_password_wrong by done. simpl.
    split_and!; try done. by eexists.
Qed.

(** An attempt that reaches the password check is recorded on the
    account: counter 0 after a verified password, one more otherwise;
    the stored hash is not touched. *)
Lemma login_records_password_check (t : Tables) (b : bool) (now : datetime)
  (ident password : string) (ip ua : option string) (i : nat) (u : User.t) :
  list_find (λ u, User.email u = ident ∨ User.username u = ident) (users t)
  = Some (i, u) →
  User.is_active u = true →
  User.is_locked now u = Ok false →
  ∃ u',
    users (committed (authenticate_user now ident password ip ua
                        (connect t b))) !! i = Some u'
    ∧ User.password_hash u' = User.password_hash u
    ∧ User.failed_login_attempts u'
      = if verify_password password (User.password_hash u) then 0
        else User.failed_login_attempts u + 1.
Proof.
  intros Hfind Hact Hunl.
  assert (Hi : (i < length (users t))%nat).
  { apply list_find_Some in Hfind as (Hi & _). by eapply lookup_lt_Some. }
  destruct (verify_password password (User.password_hash u)) eqn:Hpw.
  - rewrite (correct_password_resets t b now ident password ip ua i u)
      by done.
    eexists. split; [by apply list_lookup_insert_eq|done].
  - destruct (decide (MAX_FAILED_LOGIN_ATTEMPTS
                      ≤ User.failed_login_attempts u + 1)) as [Hmax|Hmax].
    + rewrite (login_wrong_password_locks t b now ident password ip ua i u)
        by done.
      destruct b; (eexists; split; [by apply list_lookup_insert_eq|done]).
    + rewrite (login_wrong_password_counts t b now ident password ip ua i u)
        by (done || lia).
      destruct b; (eexists; split; [by apply list_lookup_insert_eq|done]).
Qed.

(** After a successful password change, a login is decided by the new
    hash: a password the hasher verifies against it resets the counter,
    and a password the hasher rejects against it counts as a failed
    attempt. *)
Theorem login_after_password_change
  (t : Tables) (now now' : datetime) (ident : string) (i : nat)
  (user : User.t) (current_password new_password attempt : string)
  (ip ua : option string) :
  list_find (λ u, User.email u = ident ∨ User.username u = ident) (users t)
  = Some (i, user) →
  User.is_active user = true →
  User.is_locked now' user = Ok false →
  verify_password current_password (User.password_hash user) = true →
  let changed :=
    committed (change_password now i user current_password new_password
                 ip ua (connect t true)) in
  let login :=
    authenticate_user now' ident attempt ip ua (connect changed true) in
  ∃ u', users (committed login) !! i = Some u'
        ∧ User.password_hash u' = hash_password new_password
        ∧ User.failed_login_attempts u'
          = if verify_password attempt (hash_password new_password)
            then 0 else User.failed_login_attempts user + 1.
Proof.
  intros Hfind Hact Hunl Hcur changed login.
  pose proof Hfind as (Hi & HP & _)%list_find_Some.
  set (user1 := User.set_password_hash (hash_password new_password) user).
  assert (Hchanged : users changed = <[i := user1]> (users t)).
  { unfold changed. by rewrite change_password_right. }
  assert (Hfind1 :
    list_find (λ u, User.email u = ident ∨ User.username u = ident)
      (users changed) = Some (i, user1)).
  { rewrite Hchanged. eapply list_find_insert_same; [exact Hfind|exact HP]. }
  destruct (login_records_password_check changed true now' ident attempt
              ip ua i user1 Hfind1 Hact Hunl) as (u' & Hrow & Hhash & Hcnt).
  exists u'. split_and!; done.
Qed.


(** ** Invariants over any sequence of requests *)

Lemma evolves_trans (t t1 t2 : Tables) :
  evolves t t1 → evolves t1 t2 → evolves t t2.
Proof.
  intros H1 H2. induction H2.
  - done.
  - by apply evolves_audit.
  - by eapply evolves_account.
  - by apply evolves_revoke.
  - by apply evolves_revoke_all.
  - by apply evolves_new_session.
Qed.

Lemma evolves_after_audit {A} (t t' : Tables) (b : bool) (e : AuditLog.t)
  (r : Result A) :
  evolves t t' → evolves t (committed (after_audit b t' e r)).
Proof. intros H. destruct b; simpl; [by apply evolves_audit|done]. Qed.

Lemma login_evolves (t : Tables) (b : bool) (now : datetime)
  (ident password : string) (ip ua : option string) :
  evolves t (committed (authenticate_user now ident password ip ua
                          (connect t b))).
Proof.
  destruct (list_find (λ u, User.email u = ident ∨ User.username u = ident)
              (users t)) as [[i u]|] eqn:Hfind.
  2:{ rewrite login_user_not_found by done.
      apply evolves_after_audit, evolves_refl. }
  pose proof Hfind as (Hi & _)%list_find_Some.
  destruct (User.is_active u) eqn:Hact.
  2:{ rewrite (login_deactivated t b now ident password ip ua i u) by done.
      apply evolves_after_audit, evolves_refl. }
  destruct (User.locked_until u) as [l|] eqn:Hlock.
  { rewrite (login_lockout_expiry_set t b now ident password ip ua i u
               Hfind l) by done.
    apply evolves_refl. }
  apply (is_locked_no_lockout_expiry now) in Hlock.
  destruct (verify_password password (User.password_hash u)) eqn:Hpw.
  - rewrite (login_success t b now ident password ip ua i u) by done.
    assert (Hreset : evolves t
      (with_user i
         (User.set_last_login_at (Some now)
            (User.set_locked_until None
               (User.set_failed_login_attempts 0 u))) t)).
    { eapply evolves_account; [apply evolves_refl|exact Hi|].
      apply login_resets. }
    case_bool_decide as Hfresh; [|done].
    apply evolves_after_audit, evolves_new_session; [done|].
    simpl. replace (tokens (with_user _ _ t)) with (tokens t) by done.
    exact Hfresh.
  - destruct (decide (MAX_FAILED_LOGIN_ATTEMPTS
                      ≤ User.failed_login_attempts u + 1)) as [Hmax|Hmax].
    + rewrite (login_wrong_password_locks t b now ident password ip ua i u)
        by done.
      apply evolves_after_audit.
      eapply evolves_account; [apply evolves_refl|exact Hi|].
      by apply failure_locks.
    + rewrite (login_wrong_password_counts t b now ident password ip ua i u)
        by (done || lia).
      apply evolves_after_audit.
      eapply evolves_account; [apply evolves_refl|exact Hi|].
      apply failure_counted. lia.
Qed.

Lemma refresh_evolves (t : Tables) (b : bool) (now : datetime)
  (token : string) (ip ua : option string) :
  evolves t (committed (refresh_access_token now token ip ua (connect t b))).
Proof.
  rewrite refresh_access_token_run.
  destruct (list_find _ _) as [[i s]|]; [|apply evolves_refl].
  destruct (SessionModel.is_revoked s); apply evolves_refl.
Qed.

Lemma logout_evolves (t : Tables) (b : bool) (now : datetime)
  (user : User.t) (token : option string) (ip ua : option string) :
  evolves t (committed (logout_user now user token ip ua (connect t b))).
Proof.
  destruct (truthy token) eqn:Htruthy.
  - destruct token as [token|]; [|done].
    apply bool_decide_eq_true in Htruthy.
    rewrite logout_single by done. apply evolves_after_audit.
    destruct (list_find _ (sessions t)) as [[i s]|] eqn:Hfind;
      [|apply evolves_refl].
    apply list_find_Some in Hfind as (Hi & _).
    apply evolves_revoke; [apply evolves_refl|exact Hi].
  - rewrite logout_all by done. apply evolves_after_audit.
    apply (evolves_revoke_all t t), evolves_refl.
Qed.

Lemma profile_evolves (t : Tables) (b : bool) (now : datetime) (i : nat)
  (user : User.t) (update_data : list (string * PyVal))
  (ip ua : option string) :
  users t !! i = Some user →
  evolves t (committed (update_user_profile now i user update_data ip ua
                          (connect t b))).
Proof.
  intros Hi.
  destruct (apply_updates_frame update_data user)
    as (user' & Happly & ? & ? & ? & ? & ? & ? & ? & ? & ? & ? & _).
  rewrite (update_user_profile_run t b now i user user') by done.
  case_bool_decide; [|apply evolves_refl].
  apply evolves_after_audit.
  eapply evolves_account; [apply evolves_refl|exact Hi|].
  by apply profile_updated.
Qed.

Lemma password_evolves (t : Tables) (b : bool) (now : datetime) (i : nat)
  (user : User.t) (current_password new_password : string)
  (ip ua : option string) :
  users t !! i = Some user →
  evolves t (committed (change_password now i user current_password
                          new_password ip ua (connect t b))).
Proof.
  intros Hi.
  destruct (verify_password current_password (User.password_hash user))
    eqn:Hpw.
  - rewrite change_password_right by done. apply evolves_after_audit.
    eapply evolves_account; [apply evolves_refl|exact Hi|].
    apply password_changed.
  - rewrite change_password_wrong by done.
    apply evolves_after_audit, evolves_refl.
Qed.

Lemma requests_evolve (t t' : Tables) : requests t t' → evolves t t'.
Proof.
  induction 1 as [|t1 t2 _ IH Hreq]; [apply evolves_refl|].
  eapply evolves_trans; [exact IH|].
  destruct Hreq.
  - apply login_evolves.
  - apply refresh_evolves.
  - apply logout_evolves.
  - by apply profile_evolves.
  - by apply password_evolves.
Qed.

(** Over any sequence of login, refresh, logout, profile-update and
    password-change requests, on a healthy or a failing store, the audit
    log only grows at its end: the rows it had are still there, in
    place and unchanged. *)
Theorem audit_log_is_append_only (t t' : Tables) :
  requests t t' → ∃ added, audit_log t' = audit_log t ++ added.
Proof.
  intros H%requests_evolve. induction H; simpl.
  - exists []. by rewrite app_nil_r.
  - destruct IHevolves as [l ->]. exists (l ++ [e]). by rewrite app_assoc.
  - done.
  - done.
  - done.
  - done.
Qed.

Lemma set_is_revoked_twice (s : SessionModel.t) :
  SessionModel.set_is_revoked true (SessionModel.set_is_revoked true s)
  = SessionModel.set_is_revoked true s.
Proof. done. Qed.

(** Over any sequence of requests, no session row is deleted and none
    is rewritten except to set its revocation flag: a session keeps its
    position, token, owner, expiry and client context, and once revoked
    it stays revoked. *)
Theorem sessions_are_only_added_or_revoked (t t' : Tables) :
  requests t t' →
  ∀ k s, sessions t !! k = Some s →
    ∃ s', sessions t' !! k = Some s'
          ∧ (s' = s ∨ s' = SessionModel.set_is_revoked true s)
          ∧ (SessionModel.is_revoked s = true →
             SessionModel.is_revoked s' = true).
Proof.
  intros H%requests_evolve. induction H; intros k s0 Hk; simpl.
  - exists s0. auto.
  - by apply IHevolves.
  - by apply IHevolves.
  - destruct (IHevolves k s0 Hk) as (s' & Hs' & Hcase & Hrev).
    destruct (decide (i = k)) as [->|Hne].
    + exists (SessionModel.set_is_revoked true s').
      assert (s = s') as -> by congruence.
      split; [apply list_lookup_insert_eq; by eapply lookup_lt_Some|].
      split; [|done].
      destruct Hcase as [->| ->]; by right.
    + exists s'. by rewrite list_lookup_insert_ne.
  - destruct (IHevolves k s0 Hk) as (s' & Hs' & Hcase & Hrev).
    unfold revoke_all. rewrite list_lookup_fmap, Hs'. simpl.
    eexists. split; [done|].
    case_match; [|done].
    split; [|done]. destruct Hcase as [->| ->]; by right.
  - destruct (IHevolves k s0 Hk) as (s' & Hs' & Hcase & Hrev).
    exists s'. split; [|done]. by apply lookup_app_l_Some.
Qed.

Lemma account_change_identity (u u' : User.t) :
  account_change u u' →
  User.id u' = User.id u
  ∧ User.email u' = User.email u
  ∧ User.username u' = User.username u
  ∧ User.role u' = User.role u
  ∧ User.is_active u' = User.is_active u
  ∧ User.mfa_enabled u' = User.mfa_enabled u.
Proof. by destruct 1. Qed.

(** Over any sequence of requests, no account is added or deleted, and
    every account keeps its id, email, username, role, activation flag
    and MFA flag: the services cannot rename, promote or deactivate. *)
Theorem accounts_keep_identity_and_role (t t' : Tables) :
  requests t t' →
  length (users t') = length (users t)
  ∧ ∀ k u, users t !! k = Some u →
      ∃ u', users t' !! k = Some u'
            ∧ User.id u' = User.id u
            ∧ User.email u' = User.email u
            ∧ User.username u' = User.username u
            ∧ User.role u' = User.role u
            ∧ User.is_active u' = User.is_active u
            ∧ User.mfa_enabled u' = User.mfa_enabled u.
Proof.
  intros H%requests_evolve. induction H; simpl; try done.
  - split; [done|]. intros k u Hk. exists u. auto 10.
  - destruct IHevolves as [Hlen IH]. split; [by rewrite length_insert|].
    intros k u0 Hk. destruct (IH k u0 Hk) as (u1 & Hu1 & Hfields).
    destruct (decide (i = k)) as [->|Hne].
    + assert (u = u1) as -> by congruence.
      exists u'. split; [apply list_lookup_insert_eq;
                         by eapply lookup_lt_Some|].
      destruct (account_change_identity u1 u') as (-> & -> & -> & -> & -> & ->);
        done.
    + exists u1. by rewrite list_lookup_insert_ne.
Qed.

(** Over any sequence of requests, the refresh tokens of the store stay
    pairwise distinct. *)
Theorem refresh_tokens_stay_unique (t t' : Tables) :
  requests t t' → NoDup (tokens t) → NoDup (tokens t').
Proof.
  intros H%requests_evolve Hnodup. induction H; simpl; try done.
  - rewrite (tokens_with_session t1 i s); done.
  - replace (tokens (mkTables _ (revoke_all uid (sessions t1)) _))
      with (tokens t1); [done|].
    unfold tokens, revoke_all. simpl. rewrite <- list_fmap_compose.
    apply list_fmap_ext. intros _ x _. simpl. by case_match.
  - unfold tokens. simpl. rewrite fmap_app. simpl.
    apply NoDup_app. split_and!; [by apply IHevolves| |apply NoDup_singleton].
    intros x Hx ->%list_elem_of_singleton. done.
Qed.

Lemma account_change_lockout (u u' : User.t) :
  account_change u u' → lockout_consistent u → lockout_consistent u'.
Proof.
  unfold lockout_consistent.
  destruct 1 as [u Hlt|u l Hle|u now|u h
                 |u u' _ _ _ _ _ _ _ Hfailed Hlocked _];
    simpl; intros [Hpos Hlock].
  - split; [lia|]. intros Hsome. specialize (Hlock Hsome). lia.
  - split; [lia|]. done.
  - split; [lia|]. by intros [? ?].
  - done.
  - rewrite Hfailed, Hlocked. done.
Qed.

(** Over any sequence of requests, the lockout state stays consistent:
    in every account the counter is not negative and a lockout expiry
    is only present on a counter at or above the threshold. *)
Theorem lockout_state_stays_consistent (t t' : Tables) :
  requests t t' →
  Forall lockout_consistent (users t) →
  Forall lockout_consistent (users t').
Proof.
  intros H%requests_evolve Hinv. induction H; simpl; try done.
  apply Forall_insert; [done|].
  eapply account_change_lockout; [done|].
  by eapply Forall_lookup_1.
Qed.

(** ** Routes *)

(** A protected route does nothing unless the guard grants the request:
    when [get_current_user] refuses the bearer token, the profile,
    profile-update and password routes raise the guard's exception and
    hand the store back untouched; no service runs and no audit row is
    written. *)
Theorem protected_routes_stop_at_the_guard
  (now : datetime) (token : string) (db : Db) (e : Exception) :
  fst (get_current_user now token db) = Raise e →
  UsersRouter.get_current_user_profile now token db = (Raise e, db)
  ∧ (∀ client_host user_agent update_dict,
       UsersRouter.update_current_user_profile now token client_host
         user_agent update_dict db = (Raise e, db))
  ∧ (∀ client_host user_agent current_password new_password,
       UsersRouter.change_password now token client_host user_agent
         current_password new_password db = (Raise e, db)).
Proof.
  intros Hguard.
  pose proof (get_current_user_connection now token db) as Hro.
  destruct (get_current_user now token db) as [r db'] eqn:Hrun.
  simpl in Hguard, Hro. subst r db'.
  unfold UsersRouter.get_current_user_profile,
    UsersRouter.update_current_user_profile, UsersRouter.change_password.
  unfold bind at 1 2 3. by rewrite Hrun.
Qed.

(** Tokens are only issued for a verified password on an active,
    unlocked account: when the login route answers, the identifier
    names an account that is active and not locked, the password
    verifies against its hash, the access token is the one minted for
    that account, [expires_in] is the number of seconds until the access
    token's [exp] claim, and the refresh token is stored with the
    account's newest session. *)
Theorem login_route_answers_only_verified_logins
  (t : Tables) (b : bool) (now : datetime)
  (client_host user_agent : option string)
  (email_or_username password : string)
  (response : TokenResponse.t) (db' : Db) :
  AuthRouter.login now client_host user_agent email_or_username password
    (connect t b) = (Ok response, db') →
  ∃ i u,
    list_find (λ u, User.email u = email_or_username
                    ∨ User.username u = email_or_username) (users t)
    = Some (i, u)
    ∧ User.is_active u = true
    ∧ User.is_locked now u = Ok false
    ∧ verify_password password (User.password_hash u) = true
    ∧ TokenResponse.token_type response = "bearer"
    ∧ TokenResponse.access_token response
      = create_access_token now
          (<["role" := VStr (User.role u)]>
             {["sub" := VStr (uuid_str (User.id u))]}) None
    ∧ access_claims now
        (<["role" := VStr (User.role u)]>
           {["sub" := VStr (uuid_str (User.id u))]}) None !! "exp"
      = Some (VDatetime (now + TokenResponse.expires_in response * 1000000))
    ∧ ∃ session,
        last (sessions (durable db')) = Some session
        ∧ SessionModel.refresh_token session
          = TokenResponse.refresh_token response
        ∧ SessionModel.user_id session = User.id u
        ∧ SessionModel.is_revoked session = false.
Proof.
  unfold AuthRouter.login, bind. intros Hrun.
  destruct (list_find (λ u, User.email u = email_or_username
                            ∨ User.username u = email_or_username)
              (users t)) as [[i u]|] eqn:Hfind.
  2:{ rewrite login_user_not_found in Hrun by done. by destruct b. }
  destruct (User.is_active u) eqn:Hact.
  2:{ rewrite (login_deactivated t b now _ _ _ _ i u) in Hrun by done.
      by destruct b. }
  destruct (User.locked_until u) as [l|] eqn:Hlock.
  { by rewrite (login_lockout_expiry_set t b now _ _ _ _ i u Hfind l)
      in Hrun by done. }
  apply (is_locked_no_lockout_expiry now) in Hlock.
  destruct (verify_password password (User.password_hash u)) eqn:Hpw.
  2:{ destruct (decide (MAX_FAILED_LOGIN_ATTEMPTS
                        ≤ User.failed_login_attempts u + 1)) as [Hmax|Hmax].
      - rewrite (login_wrong_password_locks t b now _ _ _ _ i u) in Hrun
          by done.
        by destruct b.
      - rewrite (login_wrong_password_counts t b now _ _ _ _ i u) in Hrun
          by (done || lia).
        by destruct b. }
  rewrite (login_success t b now _ _ _ _ i u) in Hrun by done.
  case_bool_decide; [|done].
  destruct b; [|done]. simpl in Hrun. injection Hrun as <- <-.
  exists i, u. simpl. split_and!; try done.
  - unfold access_claims. rewrite lookup_insert_ne by done.
    rewrite lookup_insert_eq. unfold timedelta_minutes. do 2 f_equal. lia.
  - eexists. rewrite last_snoc. done.
Qed.

(** ** Notifications *)

Lemma validate_notifications_run (rows : list Notification.t) :
  validate_notifications rows
  = match rows with [] => Ok [] | _ :: _ => Raise ValidationError end.
Proof. by destruct rows. Qed.

Lemma newest_first_length (l : list Notification.t) :
  length (newest_first l) = length l.
Proof.
  unfold newest_first. by rewrite merge_sort_Permutation.
Qed.

Lemma page_empty {A} (l : list A) (limit offset : nat) :
  (1 ≤ limit)%nat →
  take limit (drop offset l) = [] ↔ (length l ≤ offset)%nat.
Proof.
  intros Hlimit. split.
  - intros Hnil. apply (f_equal length) in Hnil.
    rewrite length_take, length_drop in Hnil. simpl in Hnil. lia.
  - intros Hlen. rewrite drop_ge by done. apply take_nil.
Qed.

(** [GET /notifications] answers only with an empty page.  When the
    query has rows left at [offset], building the response fails on the
    first of them with [ValidationError]: the schema's [metadata] field
    reads the model's inherited registry, not the JSON column.  When
    there is none (the caller has no such notification, or [offset] is
    past the last one) the answer is the empty list with [total] the
    number of rows of the query and [unread_count] what
    [GET /notifications/unread/count] gives. *)
Theorem notification_pages
  (current_user : User.t) (table : list Notification.t)
  (limit offset : nat) (unread_only : bool) :
  (1 ≤ limit)%nat →
  let mine :=
    filter (λ n, Notification.user_id n = User.id current_user) table in
  let rows :=
    if unread_only
    then filter (λ n, Notification.is_read n = false) mine
    else mine in
  get_notifications current_user table limit offset unread_only
  = if bool_decide (length rows ≤ offset)%nat
    then Ok (NotificationListResponse.mk [] (length rows)
               (get_unread_count current_user table))
    else Raise ValidationError.
Proof.
  intros Hlimit mine rows. unfold get_notifications.
  fold mine. fold rows. rewrite validate_notifications_run.
  pose proof (page_empty (newest_first rows) limit offset Hlimit) as Hpage.
  rewrite newest_first_length in Hpage.
  case_bool_decide as Hlen.
  - by rewrite (proj2 Hpage Hlen).
  - destruct (take limit (drop offset (newest_first rows))) eqn:Htake;
      [|done].
    exfalso. apply Hlen. by apply Hpage.
Qed.

Lemma set_is_read_same (n : Notification.t) :
  Notification.is_read n = true → Notification.set_is_read true n = n.
Proof. destruct n; simpl. by intros ->. Qed.

Section MarkAsRead.
Variables (notification_ids : list UUID) (current_user : User.t).

Let selected (n : Notification.t) : Prop :=
  Notification.id n ∈ notification_ids
  ∧ Notification.user_id n = User.id current_user.

Let mark (n : Notification.t) : Notification.t :=
  if bool_decide (selected n) then Notification.set_is_read true n else n.

(** The loop over the fetched rows, started anywhere in the table,
    marks the rest of the table in one pass and counts the rows it
    changed. *)
Lemma mark_loop_pass (l : list Notification.t) :
  ∀ (pre : list Notification.t) (count : nat),
  mark_loop
    (filter (λ kn : nat * Notification.t, selected kn.2)
       (imap (λ k, pair (length pre + k)%nat) l))
    (pre ++ l) count
  = (pre ++ (mark <$> l),
     (count + length (filter (λ n, selected n
                                   ∧ Notification.is_read n = false) l))%nat).
Proof.
  induction l as [|x l IH]; intros pre count.
  - simpl. by rewrite Nat.add_0_r.
  - rewrite imap_cons.
    assert (Hshift : ∀ x',
      imap ((λ k, pair (length pre + k)%nat) ∘ S) l
      = imap (λ k, pair (length (pre ++ [x']) + k)%nat) l).
    { intros x'. apply imap_ext. intros k y _. simpl.
      rewrite length_app. simpl. f_equal. lia. }
    assert (Hcons : ∀ x', pre ++ x' :: l = (pre ++ [x']) ++ l).
    { intros x'. by rewrite <- app_assoc. }
    rewrite fmap_cons, filter_cons. unfold mark at 1.
    destruct (decide (selected (length pre + 0, x)%nat.2)) as [Hsel|Hsel];
      simpl in Hsel.
    + rewrite (bool_decide_eq_true_2 _ Hsel). cbn [mark_loop].
      destruct (Notification.is_read x) eqn:Hread; cbn [negb].
      * rewrite (Hshift x), (Hcons x), IH.
        rewrite (set_is_read_same x Hread), <- app_assoc. simpl.
        rewrite filter_cons_False; [done|]. intros [_ ?]. congruence.
      * rewrite insert_app_r. simpl.
        rewrite (Hshift (Notification.set_is_read true x)),
          (Hcons (Notification.set_is_read true x)), IH.
        rewrite <- app_assoc. simpl.
        rewrite filter_cons_True by done. simpl. f_equal. lia.
    + rewrite (bool_decide_eq_false_2 _ Hsel).
      rewrite (Hshift x), (Hcons x), IH, <- app_assoc. simpl.
      rewrite filter_cons_False; [done|]. by intros [? _].
Qed.

Lemma fetched_length (l : list Notification.t) :
  ∀ f : nat → nat,
  length (filter (λ kn : nat * Notification.t, selected kn.2)
            (imap (λ k, pair (f k)) l))
  = length (filter selected l).
Proof.
  induction l as [|x l IH]; intros f; [done|].
  rewrite imap_cons, !filter_cons. simpl.
  specialize (IH (f ∘ S)).
  destruct (decide (selected x)); simpl; by rewrite <- IH.
Qed.

Lemma mark_notifications_as_read_run (table : list Notification.t) :
  mark_notifications_as_read notification_ids current_user table
  = if bool_decide (length (filter selected table)
                    ≠ length notification_ids)
    then (Raise (HTTPException HTTP_404_NOT_FOUND
                   "One or more notifications not found"), table)
    else (Ok (length (filter (λ n, selected n
                                   ∧ Notification.is_read n = false) table)),
          marked_as_read notification_ids current_user table).
Proof.
  unfold mark_notifications_as_read, fetch_for_marking.
  assert (Hlen :
    length (filter (λ kn : nat * Notification.t,
                      Notification.id kn.2 ∈ notification_ids
                      ∧ Notification.user_id kn.2 = User.id current_user)
              (imap pair table))
    = length (filter selected table))
    by apply (fetched_length table (λ k, k)).
  rewrite Hlen. case_bool_decide; [done|].
  assert (Hpass :
    mark_loop
      (filter (λ kn : nat * Notification.t,
                 Notification.id kn.2 ∈ notification_ids
                 ∧ Notification.user_id kn.2 = User.id current_user)
         (imap pair table)) table 0
    = (marked_as_read notification_ids current_user table,
       length (filter (λ n, selected n
                            ∧ Notification.is_read n = false) table)))
    by apply (mark_loop_pass table [] 0).
  by rewrite Hpass.
Qed.

Lemma marked_as_read_selected (table : list Notification.t) :
  filter selected (marked_as_read notification_ids current_user table)
  = marked_as_read notification_ids current_user (filter selected table).
Proof.
  unfold marked_as_read. induction table as [|x l IH]; [done|].
  rewrite fmap_cons, !filter_cons.
  destruct (decide (selected x)) as [Hsel|Hsel].
  - rewrite (bool_decide_eq_true_2 _ Hsel).
    rewrite decide_True by done. rewrite fmap_cons.
    rewrite (bool_decide_eq_true_2 _ Hsel). by rewrite IH.
  - rewrite (bool_decide_eq_false_2 _ Hsel).
    rewrite decide_False by done. done.
Qed.

Lemma marked_as_read_idemp (table : list Notification.t) :
  marked_as_read notification_ids current_user
    (marked_as_read notification_ids current_user table)
  = marked_as_read notification_ids current_user table.
Proof.
  unfold marked_as_read. rewrite <- list_fmap_compose.
  apply list_fmap_ext. intros _ x _. simpl.
  by repeat case_bool_decide.
Qed.

Lemma marked_as_read_leaves_no_unread (table : list Notification.t) :
  filter (λ n, selected n ∧ Notification.is_read n = false)
    (marked_as_read notification_ids current_user table) = [].
Proof.
  unfold marked_as_read. induction table as [|x l IH]; [done|].
  rewrite fmap_cons, filter_cons_False; [done|].
  case_bool_decide as Hsel; simpl; intros [Hs Hr]; [done|].
  by apply Hsel.
Qed.

Lemma unread_count_after_marking (other : User.t)
  (table : list Notification.t) :
  (length (filter (λ n, Notification.user_id n = User.id other
                        ∧ Notification.is_read n = false)
             (marked_as_read notification_ids current_user table))
   + (if bool_decide (User.id other = User.id current_user)
      then length (filter (λ n, selected n
                                ∧ Notification.is_read n = false) table)
      else 0)
   = length (filter (λ n, Notification.user_id n = User.id other
                          ∧ Notification.is_read n = false) table))%nat.
Proof.
  unfold marked_as_read. induction table as [|x l IH].
  - simpl. by case_bool_decide.
  - rewrite fmap_cons, !filter_cons.
    destruct (decide (selected x)) as [Hsel|Hsel].
    + rewrite (bool_decide_eq_true_2 _ Hsel).
      destruct Hsel as [Hin Huser].
      repeat (case_decide || case_bool_decide);
        cbn [length Notification.is_read Notification.set_is_read
             Notification.user_id] in *;
        destruct_and?; try congruence; try lia;
        try (exfalso; unfold selected in *; naive_solver congruence).
    + rewrite (bool_decide_eq_false_2 _ Hsel).
      repeat (case_decide || case_bool_decide);
        cbn [length Notification.is_read Notification.set_is_read
             Notification.user_id] in *;
        destruct_and?; try congruence; try lia;
        try (exfalso; unfold selected in *; naive_solver congruence).
Qed.

End MarkAsRead.

(** What a successful mark-as-read request does: the table after it is
    the table with the requested rows of the caller marked as read, and
    nothing else is touched (a row changes only by going from unread to
    read, and only if it is requested and owned by the caller);
    [updated_count] is the number of rows that changed, which is the
    drop of the caller's unread count; other users' unread counts stay
    as they were; repeating the request updates nothing. *)
Theorem mark_as_read_effects
  (notification_ids : list UUID) (current_user : User.t)
  (table table' : list Notification.t) (updated_count : nat) :
  mark_notifications_as_read notification_ids current_user table
  = (Ok updated_count, table') →
  table' = marked_as_read notification_ids current_user table
  ∧ length table' = length table
  ∧ (∀ k n, table !! k = Some n →
       ∃ n', table' !! k = Some n'
             ∧ (n' = n
                ∨ (Notification.id n ∈ notification_ids
                   ∧ Notification.user_id n = User.id current_user
                   ∧ Notification.is_read n = false
                   ∧ n' = Notification.set_is_read true n)))
  ∧ (∀ n', n' ∈ table' →
       Notification.id n' ∈ notification_ids →
       Notification.user_id n' = User.id current_user →
       Notification.is_read n' = true)
  ∧ (get_unread_count current_user table' + updated_count
     = get_unread_count current_user table)%nat
  ∧ (∀ other, User.id other ≠ User.id current_user →
       get_unread_count other table' = get_unread_count other table)
  ∧ mark_notifications_as_read notification_ids current_user table'
    = (Ok 0%nat, table').
Proof.
  rewrite mark_notifications_as_read_run.
  case_bool_decide as Hlen; [done|]. intros [= <- <-].
  split_and!.
  - done.
  - unfold marked_as_read. by rewrite length_fmap.
  - intros k n Hk. unfold marked_as_read.
    rewrite list_lookup_fmap, Hk. simpl. eexists. split; [done|].
    case_bool_decide as Hsel; [|by left].
    destruct (Notification.is_read n) eqn:Hread.
    + left. by apply set_is_read_same.
    + right. by destruct Hsel.
  - intros n' Hin Hid Huser.
    destruct (Notification.is_read n') eqn:Hread; [done|].
    pose proof (marked_as_read_leaves_no_unread notification_ids
                  current_user table) as Hnone.
    assert (n' ∈ filter
              (λ n, (Notification.id n ∈ notification_ids
                     ∧ Notification.user_id n = User.id current_user)
                    ∧ Notification.is_read n = false)
              (marked_as_read notification_ids current_user table)) as Hn
      by by apply list_elem_of_filter.
    rewrite Hnone in Hn. by apply elem_of_nil in Hn.
  - pose proof (unread_count_after_marking notification_ids current_user
                  current_user table) as Hcount.
    rewrite bool_decide_eq_true_2 in Hcount by done. exact Hcount.
  - intros other Hother.
    pose proof (unread_count_after_marking notification_ids current_user
                  other table) as Hcount.
    rewrite bool_decide_eq_false_2 in Hcount by done.
    unfold get_unread_count. lia.
  - rewrite mark_notifications_as_read_run.
    rewrite marked_as_read_selected.
    rewrite bool_decide_eq_false_2.
    + by rewrite marked_as_read_leaves_no_unread, marked_as_read_idemp.
    + unfold marked_as_read at 1. rewrite length_fmap. by intros ?.
Qed.

(** When mark-as-read answers 404, and what it leaves then: the table
    is untouched.  With unique notification ids in the table and no
    repeated id in the request, the request succeeds exactly when every
    requested id is a notification of the caller; a request that repeats
    an id is refused even if all its ids are the caller's. *)
Theorem mark_as_read_not_found
  (notification_ids : list UUID) (current_user : User.t)
  (table : list Notification.t) :
  NoDup (Notification.id <$> table) →
  let res :=
    mark_notifications_as_read notification_ids current_user table in
  ((∃ updated_count, fst res = Ok updated_count)
   ∨ res = (Raise (HTTPException HTTP_404_NOT_FOUND
                     "One or more notifications not found"), table))
  ∧ (NoDup notification_ids →
     ((∃ updated_count, fst res = Ok updated_count)
      ↔ ∀ i, i ∈ notification_ids →
          ∃ n, n ∈ table ∧ Notification.id n = i
               ∧ Notification.user_id n = User.id current_user))
  ∧ (¬ NoDup notification_ids →
     res = (Raise (HTTPException HTTP_404_NOT_FOUND
                     "One or more notifications not found"), table)).
Proof.
  intros Hkeys res. subst res. rewrite mark_notifications_as_read_run.
  set (mine := filter (λ n, Notification.id n ∈ notification_ids
                            ∧ Notification.user_id n = User.id current_user)
                 table).
  assert (Hnodup : NoDup (Notification.id <$> mine)).
  { eapply sublist_NoDup; [exact Hkeys|].
    apply fmap_sublist. apply sublist_filter. }
  assert (Hsub : Notification.id <$> mine ⊆+ notification_ids).
  { apply NoDup_submseteq; [done|].
    intros i (n & -> & Hn)%list_elem_of_fmap.
    by apply list_elem_of_filter in Hn as [[? _] _]. }
  assert (Hle : (length mine ≤ length notification_ids)%nat).
  { rewrite <- (length_fmap Notification.id mine).
    by apply submseteq_length. }
  split_and!.
  - case_bool_decide; [by right|left; by eexists].
  - intros Hids. split.
    + intros [c Hok]. case_bool_decide as Hlen; [done|].
      assert (Hperm : Notification.id <$> mine ≡ₚ notification_ids).
      { apply submseteq_length_Permutation; [done|].
        rewrite length_fmap. lia. }
      intros i Hi. rewrite <- Hperm in Hi.
      apply list_elem_of_fmap in Hi as (n & -> & Hn).
      apply list_elem_of_filter in Hn as [[_ Huser] Hn]. by exists n.
    + intros Hall.
      assert (Hsup : notification_ids ⊆+ Notification.id <$> mine).
      { apply NoDup_submseteq; [done|]. intros i Hi.
        destruct (Hall i Hi) as (n & Hn & <- & Huser).
        apply list_elem_of_fmap_2. by apply list_elem_of_filter. }
      apply submseteq_length in Hsup. rewrite length_fmap in Hsup.
      rewrite bool_decide_eq_false_2 by lia. by eexists.
  - intros Hdup. rewrite bool_decide_eq_true_2; [done|].
    intros Hlen. apply Hdup.
    assert (Hperm : Notification.id <$> mine ≡ₚ notification_ids).
    { apply submseteq_length_Permutation; [done|].
      rewrite length_fmap. lia. }
    by rewrite <- Hperm.
Qed.

(** ** Password strength *)

Lemma list_ascii_of_string_app (a b : string) :
  String.list_ascii_of_string (a +:+ b)
  = String.list_ascii_of_string a ++ String.list_ascii_of_string b.
Proof. induction a as [|c a IH]; simpl; [done|]. by rewrite IH. Qed.

Lemma string_length_app (a b : string) :
  String.length (a +:+ b) = (String.length a + String.length b)%nat.
Proof. induction a as [|c a IH]; simpl; [done|]. by rewrite IH. Qed.

Lemma existsb_elem_of {A} (f : A → bool) (l : list A) :
  existsb f l = true ↔ ∃ x, x ∈ l ∧ f x = true.
Proof.
  rewrite existsb_exists. by setoid_rewrite list_elem_of_In.
Qed.

(** On ASCII passwords the strength validator accepts exactly the
    passwords of at least 8 characters that hold an upper-case letter,
    a lower-case letter, a digit and one of the listed special
    characters, and hands an accepted password back unchanged; a
    password shorter than 8 characters is refused for its length
    whatever it holds; and an accepted password stays acceptable when
    characters are put before or after it. *)
Theorem password_strength_rules (v : string) :
  Forall (λ c, (Ascii.nat_of_ascii c < 128)%nat)
    (String.list_ascii_of_string v) →
  (validate_password_strength v = Valid v
   ↔ (8 ≤ String.length v)%nat
     ∧ (∃ c, c ∈ String.list_ascii_of_string v ∧ isupper c = true)
     ∧ (∃ c, c ∈ String.list_ascii_of_string v ∧ islower c = true)
     ∧ (∃ c, c ∈ String.list_ascii_of_string v ∧ isdigit c = true)
     ∧ (∃ c, c ∈ String.list_ascii_of_string v
             ∧ c ∈ String.list_ascii_of_string special_chars))
  ∧ (∀ w, validate_password_strength v = Valid w → w = v)
  ∧ ((String.length v < 8)%nat →
     validate_password_strength v
     = ValueError "Password must be at least 8 characters long")
  ∧ (validate_password_strength v = Valid v →
     ∀ before after,
       validate_password_strength (before +:+ v +:+ after)
       = Valid (before +:+ v +:+ after)).
Proof.
  intros _.
  assert (Hiff :
    ∀ s, validate_password_strength s = Valid s
         ↔ (8 ≤ String.length s)%nat
           ∧ (∃ c, c ∈ String.list_ascii_of_string s ∧ isupper c = true)
           ∧ (∃ c, c ∈ String.list_ascii_of_string s ∧ islower c = true)
           ∧ (∃ c, c ∈ String.list_ascii_of_string s ∧ isdigit c = true)
           ∧ (∃ c, c ∈ String.list_ascii_of_string s
                   ∧ c ∈ String.list_ascii_of_string special_chars)).
  { intros s. unfold validate_password_strength.
    rewrite <- !existsb_elem_of.
    assert (Hspecial :
      (∃ c, c ∈ String.list_ascii_of_string s
            ∧ c ∈ String.list_ascii_of_string special_chars)
      ↔ existsb is_special (String.list_ascii_of_string s) = true).
    { rewrite existsb_elem_of. unfold is_special.
      by setoid_rewrite bool_decide_eq_true. }
    rewrite Hspecial.
    destruct (String.length s <? 8)%nat eqn:Hlen.
    { apply Nat.ltb_lt in Hlen. split; [done|]. intros [? _]. lia. }
    apply Nat.ltb_ge in Hlen.
    destruct (existsb isupper _); simpl; [|naive_solver].
    destruct (existsb islower _); simpl; [|naive_solver].
    destruct (existsb isdigit _); simpl; [|naive_solver].
    destruct (existsb is_special _); simpl; naive_solver. }
  split_and!.
  - apply Hiff.
  - unfold validate_password_strength. intros w.
    repeat case_match; try done. by intros [= ->].
  - intros Hlen. unfold validate_password_strength.
    by rewrite (proj2 (Nat.ltb_lt _ _) Hlen).
  - intros Hok before after. apply Hiff. apply Hiff in Hok.
    destruct Hok as (Hlen & [cu [Hcu ?]] & [cl [Hcl ?]] & [cd [Hcd ?]]
                     & [cs [Hcs ?]]).
    rewrite !string_length_app, !list_ascii_of_string_app.
    split_and!; [lia|exists cu|exists cl|exists cd|exists cs];
      (split; [|done]); set_solver.
Qed.

End Extensions.

(** * The further properties on concrete stores *)

Section ConcreteExtensions.
#[local] Existing Instance default_settings.
#[local] Existing Instance portal_primitives.

(** The guard grants the access token of account 3's login at clock
    1000 on the seeded store: the account returned is row 1, active and
    without lockout expiry. *)
Lemma access_guard_grants_only_active_unlocked_witness :
  users (working (connect (seed 0 None) true)) !! 1%nat = Some (chris 0 None)
  ∧ User.is_active (chris 0 None) = true
  ∧ User.is_locked 2000 (chris 0 None) = Ok false.
Proof.
  pose proof (access_guard_grants_only_active_unlocked 2000
                (create_access_token 1000
                   (<["role" := VStr "user"]> {["sub" := VStr "3"]}) None)
                (connect (seed 0 None) true) (connect (seed 0 None) true)
                1 (chris 0 None)) as H.
  destruct H as (_ & Hrow & Hactive & Hlocked & _);
    [vm_compute; reflexivity|].
  split_and!; assumption.
Defined.

(** The same token once the account has a lockout expiry, here one that
    has passed already. *)
Lemma access_guard_account_gate_witness :
  get_current_user 10000
    (create_access_token 1000
       (<["role" := VStr "user"]> {["sub" := VStr "3"]}) None)
    (connect (seed 5 (Some 9000)) true)
  = (Raise TypeError, connect (seed 5 (Some 9000)) true).
Proof.
  eapply (access_guard_account_gate 10000
            (create_access_token 1000
               (<["role" := VStr "user"]> {["sub" := VStr "3"]}) None)
            (connect (seed 5 (Some 9000)) true) _ "3" 1
            (chris 5 (Some 9000))).
  - vm_compute. reflexivity.
  - vm_compute. reflexivity.
  - vm_compute. reflexivity.
  - discriminate.
  - vm_compute. reflexivity.
  - vm_compute. reflexivity.
Defined.

(** A login of account 3 from a phone at clock 1000: the session it
    stores, and a refresh with the returned token a minute later. *)
Lemma login_session_cannot_be_refreshed_witness :
  let login :=
    authenticate_user 1000 "chris@portal.dev" "Chris@123!"
      (Some "10.0.0.9") (Some "iPhone") (connect (seed 0 None) true) in
  let token := create_refresh_token 1000 {["sub" := VStr "3"]} None in
  sessions (committed login)
  = sessions (seed 0 None)
    ++ [SessionModel.mk 3 token (Some "10.0.0.9") (Some "iPhone") "mobile"
          (1000 + timedelta_days REFRESH_TOKEN_EXPIRE_DAYS) false 1000 1000]
  ∧ refresh_access_token 60001000 token None None
      (connect (committed login) true)
    = (Raise TypeError, connect (committed login) true).
Proof.
  pose proof (login_session_cannot_be_refreshed (seed 0 None) 1000
                "chris@portal.dev" "Chris@123!" (Some "10.0.0.9")
                (Some "iPhone") 1 (chris 0 None)) as H.
  destruct H as (_ & Hsession & Hrefresh).
  - reflexivity.
  - reflexivity.
  - reflexivity.
  - reflexivity.
  - vm_compute. intros Hin.
    repeat (apply elem_of_cons in Hin as [Hin|Hin]; [discriminate|]).
    by apply elem_of_nil in Hin.
  - split; [exact Hsession|]. apply Hrefresh.
Defined.

(** An unknown address and a wrong password for account 3 get the same
    answer. *)
Lemma login_failure_does_not_reveal_account_witness :
  fst (authenticate_user 1000 "chris_p" "wrong-password" None None
         (connect (seed 0 None) true))
  = fst (authenticate_user 1000 "nobody@portal.dev" "wrong-password" None
           None (connect (seed 0 None) true)).
Proof.
  pose proof (login_failure_does_not_reveal_account (seed 0 None) 1000
                "nobody@portal.dev" "chris_p" "wrong-password" None None 1
                (chris 0 None)) as H.
  destruct H as (_ & Hsame & _); [reflexivity..|].
  exact Hsame.
Defined.

(** After account 3 logs out from all devices, its phone's token is
    refused. *)
Lemma logout_all_ends_every_session_witness :
  let res :=
    logout_user 1000 (chris 0 None) None None None
      (connect (seed 0 None) true) in
  refresh_access_token 2000 "refresh.3.phone" None None
    (connect (committed res) true)
  = (Raise (HTTPException HTTP_401_UNAUTHORIZED
              "Refresh token has expired or been revoked"),
     connect (committed res) true).
Proof.
  apply (logout_all_ends_every_session (seed 0 None) 1000 (chris 0 None)
           None None None "refresh.3.phone" 2 (phone false)).
  - left. reflexivity.
  - reflexivity.
  - reflexivity.
Defined.

(** After a logout with the laptop's token, that token is refused and
    the phone's token is found as before. *)
Lemma logout_single_ends_that_session_only_witness :
  let res :=
    logout_user 1000 (chris 0 None) (Some "refresh.3.laptop") None None
      (connect (seed 0 None) true) in
  refresh_access_token 2000 "refresh.3.laptop" None None
    (connect (committed res) true)
  = (Raise (HTTPException HTTP_401_UNAUTHORIZED
              "Refresh token has expired or been revoked"),
     connect (committed res) true)
  ∧ list_find (λ s, SessionModel.refresh_token s = "refresh.3.phone")
      (sessions (committed res))
    = list_find (λ s, SessionModel.refresh_token s = "refresh.3.phone")
        (sessions (seed 0 None)).
Proof.
  pose proof (logout_single_ends_that_session_only (seed 0 None) 1000
                (chris 0 None) "refresh.3.laptop" None None 0
                (laptop false)) as H.
  destruct H as (Hrefused & Hothers); [discriminate|reflexivity..|].
  split.
  - apply Hrefused.
  - apply Hothers. discriminate.
Defined.

(** The fifth wrong password at clock 1000 locks account 3 until clock
    900001000; a login with the correct password an hour after that
    raises [TypeError]. *)
Lemma lockout_never_ends_witness :
  let locked :=
    committed (authenticate_user 1000 "chris_p" "wrong-password" None None
                 (connect (seed 4 None) true)) in
  users locked = [admin; chris 5 (Some 900001000)]
  ∧ authenticate_user 4500001000 "chris_p" "Chris@123!" None None
      (connect locked true)
    = (Raise TypeError, connect locked true).
Proof.
  pose proof (lockout_never_ends (seed 4 None) 1000
                "chris_p" "wrong-password" None None 1 (chris 4 None)) as H.
  destruct H as (_ & Hlater); [reflexivity..|].
  split; [reflexivity|]. apply Hlater.
Defined.

(** Account 3 changes its password: the sessions are as before. *)
Lemma change_password_effects_witness :
  let res :=
    change_password 1000 1 (chris 0 None) "Chris@123!" "N3w-Secret!" None
      None (connect (seed 0 None) true) in
  sessions (committed res) = sessions (seed 0 None)
  ∧ (verify_password "Chris@123!" (User.password_hash (chris 0 None)) = true →
     fst res = Ok ()
     ∧ users (committed res)
       = <[1%nat := User.set_password_hash (hash_password "N3w-Secret!")
                      (chris 0 None)]> (users (seed 0 None))).
Proof.
  pose proof (change_password_effects (seed 0 None) 1000 1 (chris 0 None)
                "Chris@123!" "N3w-Secret!" None None) as H.
  destruct H as (Hsessions & _ & _ & Hright); [reflexivity|].
  split; [exact Hsessions|exact Hright].
Defined.

(** After that change, a login with the old password counts as a
    failed attempt. *)
Lemma login_after_password_change_witness :
  let changed :=
    committed (change_password 1000 1 (chris 0 None) "Chris@123!"
                 "N3w-Secret!" None None (connect (seed 0 None) true)) in
  let login :=
    authenticate_user 2000 "chris_p" "Chris@123!" None None
      (connect changed true) in
  ∃ u', users (committed login) !! 1%nat = Some u'
        ∧ User.password_hash u' = hash_password "N3w-Secret!"
        ∧ User.failed_login_attempts u'
          = if verify_password "Chris@123!" (hash_password "N3w-Secret!")
            then 0 else User.failed_login_attempts (chris 0 None) + 1.
Proof.
  apply (login_after_password_change (seed 0 None) 1000 2000 "chris_p" 1
           (chris 0 None) "Chris@123!" "N3w-Secret!" "Chris@123!" None None);
    reflexivity.
Defined.

(** A wrong password, then a refresh with the laptop's token. *)
Lemma audit_log_is_append_only_witness :
  ∃ added,
    audit_log
      (committed
         (refresh_access_token 2000 "refresh.3.laptop" None None
            (connect
               (committed
                  (authenticate_user 1000 "chris_p" "wrong-password" None
                     None (connect (seed 0 None) true))) true)))
    = audit_log (seed 0 None) ++ added.
Proof.
  apply audit_log_is_append_only.
  eapply requests_more; [eapply requests_more; [apply requests_none|]|].
  - apply request_login.
  - apply request_refresh.
Defined.

(** A login of account 3, then its logout from all devices, on a store
    whose laptop session is already revoked. *)
Lemma sessions_are_only_added_or_revoked_witness :
  let t := mkTables [admin; chris 0 None] [laptop true; phone false] [] in
  let t' :=
    committed
      (logout_user 2000 (chris 0 None) None None None
         (connect
            (committed
               (authenticate_user 1000 "chris_p" "Chris@123!" None None
                  (connect t true))) true)) in
  ∃ s', sessions t' !! 1%nat = Some s'
        ∧ (s' = phone false
           ∨ s' = SessionModel.set_is_revoked true (phone false))
        ∧ (SessionModel.is_revoked (phone false) = true →
           SessionModel.is_revoked s' = true).
Proof.
  intros t t'.
  apply (sessions_are_only_added_or_revoked t t').
  - eapply requests_more; [eapply requests_more; [apply requests_none|]|].
    + apply request_login.
    + apply request_logout.
  - reflexivity.
Defined.

(** A profile update of account 3 that names [role] and [email], then a
    password change. *)
Lemma accounts_keep_identity_and_role_witness :
  let t1 :=
    committed
      (update_user_profile 1000 1 (chris 0 None)
         [("first_name", VStr "Christopher"); ("role", VStr "admin");
          ("email", VStr "root@portal.dev")]
         None None (connect (seed 0 None) true)) in
  let t' :=
    committed
      (change_password 2000 0 admin "Admin@123!" "N3w-Secret!" None None
         (connect t1 true)) in
  length (users t') = length (users (seed 0 None))
  ∧ ∀ k u, users (seed 0 None) !! k = Some u →
      ∃ u', users t' !! k = Some u'
            ∧ User.id u' = User.id u
            ∧ User.email u' = User.email u
            ∧ User.username u' = User.username u
            ∧ User.role u' = User.role u
            ∧ User.is_active u' = User.is_active u
            ∧ User.mfa_enabled u' = User.mfa_enabled u.
Proof.
  intros t1 t'.
  apply (accounts_keep_identity_and_role (seed 0 None) t').
  eapply requests_more; [eapply requests_more; [apply requests_none|]|].
  - apply (request_profile (seed 0 None) 1000 1 (chris 0 None)).
    reflexivity.
  - apply (request_password t1 2000 0 admin). vm_compute. reflexivity.
Defined.

(** A login of account 3 and a refresh with the token it returned. *)
Lemma refresh_tokens_stay_unique_witness :
  let t1 :=
    committed
      (authenticate_user 1000 "chris_p" "Chris@123!" None None
         (connect (seed 0 None) true)) in
  NoDup
    (tokens
       (committed
          (refresh_access_token 2000
             (create_refresh_token 1000 {["sub" := VStr "3"]} None)
             None None (connect t1 true)))).
Proof.
  intros t1.
  apply (refresh_tokens_stay_unique (seed 0 None)).
  - eapply requests_more; [eapply requests_more; [apply requests_none|]|].
    + apply request_login.
    + apply request_refresh.
  - apply (bool_decide_unpack _). vm_compute. exact I.
Defined.

(** Five wrong passwords for account 3, on a healthy store. *)
Lemma lockout_state_stays_consistent_witness :
  Forall lockout_consistent
    (users
       (committed
          (authenticate_user 2000 "chris_p" "wrong-again" None None
             (connect
                (committed
                   (authenticate_user 1000 "chris_p" "wrong-password" None
                      None (connect (seed 3 None) true))) true)))).
Proof.
  apply (lockout_state_stays_consistent (seed 3 None)).
  - eapply requests_more; [eapply requests_more; [apply requests_none|]|].
    + apply request_login.
    + apply request_login.
  - repeat constructor; simpl; try lia; intros [? [=]].
Defined.

(** A refresh token presented as bearer token: the three routes raise
    the guard's 401 and leave the store alone. *)
Lemma protected_routes_stop_at_the_guard_witness :
  let token := create_refresh_token 1000 {["sub" := VStr "3"]} None in
  let db := connect (seed 0 None) true in
  UsersRouter.get_current_user_profile 2000 token db
  = (Raise (HTTPException HTTP_401_UNAUTHORIZED "Invalid token type"), db)
  ∧ UsersRouter.change_password 2000 token None None "Chris@123!"
      "N3w-Secret!" db
    = (Raise (HTTPException HTTP_401_UNAUTHORIZED "Invalid token type"), db).
Proof.
  intros token db.
  pose proof (protected_routes_stop_at_the_guard 2000 token db
                (HTTPException HTTP_401_UNAUTHORIZED "Invalid token type"))
    as H.
  destruct H as (Hprofile & _ & Hpassword); [vm_compute; reflexivity|].
  split; [exact Hprofile|apply Hpassword].
Defined.

(** The login route answers account 3's login with the right
    password. *)
Lemma login_route_answers_only_verified_logins_witness :
  ∃ i u,
    list_find (λ u, User.email u = "chris_p" ∨ User.username u = "chris_p")
      (users (seed 0 None)) = Some (i, u)
    ∧ User.is_active u = true
    ∧ User.is_locked 1000 u = Ok false
    ∧ verify_password "Chris@123!" (User.password_hash u) = true.
Proof.
  pose proof (login_route_answers_only_verified_logins (seed 0 None) true
                1000 None None "chris_p" "Chris@123!") as H.
  edestruct H as (i & u & Hfound & Hactive & Hlocked & Hverified & _);
    [vm_compute; reflexivity|].
  exists i, u. split_and!; assumption.
Defined.

(** Account 3 asks for its first page of notifications and has three:
    the route raises.  Past the last of them it answers. *)
Lemma notification_pages_witness :
  get_notifications (chris 0 None) inbox 20 0 false = Raise ValidationError
  ∧ get_notifications (chris 0 None) inbox 20 3 false
    = Ok (NotificationListResponse.mk [] 3 2).
Proof.
  split.
  - apply (notification_pages (chris 0 None) inbox 20 0 false). lia.
  - apply (notification_pages (chris 0 None) inbox 20 3 false). lia.
Defined.

(** Account 3 marks its welcome and invoice notifications as read. *)
Lemma mark_as_read_effects_witness :
  let table' := [welcome true; admin_notice; invoice true; maintenance] in
  (get_unread_count (chris 0 None) table' + 2
   = get_unread_count (chris 0 None) inbox)%nat
  ∧ get_unread_count admin table' = get_unread_count admin inbox
  ∧ mark_notifications_as_read [12; 11] (chris 0 None) table'
    = (Ok 0%nat, table').
Proof.
  intros table'.
  pose proof (mark_as_read_effects [12; 11] (chris 0 None) inbox table' 2)
    as H.
  destruct H as (_ & _ & _ & _ & Hcount & Hothers & Hagain);
    [vm_compute; reflexivity|].
  split_and!; [exact Hcount|apply Hothers; discriminate|exact Hagain].
Defined.

(** A request that repeats the id of the welcome notification is
    refused. *)
Lemma mark_as_read_not_found_witness :
  mark_notifications_as_read [11; 11] (chris 0 None) inbox
  = (Raise (HTTPException HTTP_404_NOT_FOUND
              "One or more notifications not found"), inbox).
Proof.
  pose proof (mark_as_read_not_found [11; 11] (chris 0 None) inbox) as H.
  destruct H as (_ & _ & Hrepeated).
  - apply (bool_decide_unpack _). vm_compute. exact I.
  - apply Hrepeated. intros Hnodup.
    apply NoDup_cons in Hnodup as [Hnotin _].
    apply Hnotin. left.
Defined.

(** The seeded password of account 3 passes, also inside a longer
    password. *)
Lemma password_strength_rules_witness :
  validate_password_strength ("portal-" +:+ "Chris@123!" +:+ "-2024")
  = Valid ("portal-" +:+ "Chris@123!" +:+ "-2024").
Proof.
  pose proof (password_strength_rules "Chris@123!") as H.
  destruct H as (_ & _ & _ & Hlonger).
  - apply (bool_decide_unpack _). vm_compute. exact I.
  - apply (Hlonger eq_refl "portal-" "-2024").
Defined.

End ConcreteExtensions.
